(** * GTC: uncertain real and complex numbers

    A shallow embedding of [GTC/lib_real.py] and [GTC/lib_complex.py]
    (propagation of measurement uncertainty, GUM law of propagation).

    Conventions of the embedding.

    - Python [float] values that carry estimates, standard uncertainties,
      sensitivity coefficients and correlation coefficients are finite
      numbers; in the library below they are exact rationals ([Qc]):
      its theorems hold in exact arithmetic, and binary64 rounding and
      signed zeros are not part of it.  Degrees of freedom additionally
      range over [inf], [-inf] and [nan] ([xfloat]).  The module
      [Binary64] embeds the functions of the variance once more over
      binary64 floats, for the statements that rounding decides.
    - Exceptions are values of [exn]; fallible code lives in [result].
    - Node objects are shared and mutable in Python (the correlation map of
      a [Leaf] is written by [set_correlation_real]); they live in the
      registry's store and are referred to by uid.  The registry is the
      module-level object [_context] of the source; it is threaded through
      the functions that read or write it.
    - UncertainReal objects are records; a method that assigns to a slot
      returns the updated record next to its result.
    - [assert] statements are executed when [__debug__] is true (the
      interpreter's default) and skipped under [python -O].
    - Module-level names that a source file uses without binding them
      ([_context] in [lib_real]; [real], [is_infinity], [Vector] and
      [_is_uncertain_real_constant] in [lib_complex]) are read in the
      library as the objects of the package that they name.  In Python
      the evaluation of such a name raises [NameError]; the module
      [AsWritten] embeds the functions of [lib_complex] that reach one,
      as the file stands. *)

From Stdlib Require Import QArith Qcanon Qcabs Qround.
From Stdlib Require PrimFloat SpecFloat FloatOps.
From stdpp Require Import gmap list numbers strings.
Close Scope Qc_scope.
Close Scope Q_scope.

(** ** Numbers *)

Abbreviation float := Qc (only parsing).

Definition qz (z : Z) : float := Q2Qc (inject_Z z).
Definition qfrac (n : Z) (d : positive) : float := Q2Qc (n # d).

Definition Qceqb (a b : float) : bool :=
  match (a ?= b)%Qc with Eq => true | _ => false end.
Definition Qcltb (a b : float) : bool :=
  match (a ?= b)%Qc with Lt => true | _ => false end.

(** [abs(x)] and [math.copysign(1.0,x)] on a finite float. *)
Definition float_abs (x : float) : float :=
  if Qcltb x (qz 0) then (- x)%Qc else x.
Definition copysign1 (x : float) : float :=
  if Qcltb x (qz 0) then qz (-1) else qz 1.

(** Degrees of freedom: a float that may be infinite or undefined. *)
Inductive xfloat : Type :=
| Fin (q : float)
| PInf
| NInf
| NaN.

Definition inf : xfloat := PInf.
Definition nan : xfloat := NaN.

Definition is_infinity (d : xfloat) : bool :=
  match d with PInf | NInf => true | _ => false end.
Definition is_undefined (d : xfloat) : bool :=
  match d with NaN => true | _ => false end.

(** Python's [<] and [==] on floats: every comparison with [nan] is false. *)
Definition xlt (a b : xfloat) : bool :=
  match a, b with
  | NaN, _ | _, NaN => false
  | Fin p, Fin q => Qcltb p q
  | NInf, NInf => false
  | NInf, _ => true
  | _, NInf => false
  | PInf, _ => false
  | Fin _, PInf => true
  end.
Definition xeqb (a b : xfloat) : bool :=
  match a, b with
  | Fin p, Fin q => Qceqb p q
  | PInf, PInf | NInf, NInf => true
  | _, _ => false
  end.
Definition xle (a b : xfloat) : bool := xlt a b || xeqb a b.

(** ** Exceptions and fallible computations *)

Inductive exn : Type :=
| RuntimeError
| ZeroDivisionError
| AssertionError
| ValueError
| IndexError
| KeyError
| AttributeError
| NameError
| OverflowError.

Inductive result (A : Type) : Type :=
| Ok (a : A)
| Raise (e : exn).
Arguments Ok {A} a.
Arguments Raise {A} e.

Global Instance result_ret : MRet result := fun A a => Ok a.
Global Instance result_bind : MBind result := fun A B k m =>
  match m with
  | Ok a => k a
  | Raise e => Raise e
  end.

(** [assert c]: checked only when [__debug__] holds. *)
Definition py_assert (debug c : bool) : result unit :=
  if debug && negb c then Raise AssertionError else Ok tt.

(** ** Node identities *)

(** The uid of a node is a pair of the id of its registry and an integer
    (the tests read [uid[0]] and [uid[1]]).  The embedding keeps the
    integer, which tells the nodes of one registry apart; two registries
    can give the same integer. *)
Definition uid := nat.
Definition label := option string.

(** ** Sensitivity vectors (module [vector]) *)

(** Modelled from the spec: the [vector] module is not among the sources.
    A sensitivity vector is a unique-keyed, id-ordered map from node to
    coefficient; it is kept as an association list in key order. *)
Definition Vector := list (uid * float).

Definition keys (v : Vector) : list uid := v.*1.
Definition values (v : Vector) : list float := v.*2.

(** [v.get(k,default)] *)
Fixpoint vget (v : Vector) (k : uid) (default : float) : float :=
  match v with
  | [] => default
  | (k', c) :: v' => if Nat.eqb k' k then c else vget v' k default
  end.

(** Modelled from the spec: [scale(v,c)] multiplies all coefficients by [c]. *)
Definition scale_vector (v : Vector) (c : float) : Vector :=
  map (fun kc => (kc.1, (c * kc.2)%Qc)) v.

(** Modelled from the spec: [mergeWeighted(a,ca,b,cb)] has the union of the
    keys, with [result[n] = ca*a[n] + cb*b[n]]. *)
Fixpoint merge_weighted_vectors (a : Vector) (ca : float)
    (b : Vector) (cb : float) {struct a} : Vector :=
  let fix inner (b : Vector) {struct b} : Vector :=
    match a, b with
    | [], _ => scale_vector b cb
    | _, [] => scale_vector a ca
    | (ka, va) :: a', (kb, vb) :: b' =>
        if Nat.ltb ka kb then
          (ka, (ca * va)%Qc) :: merge_weighted_vectors a' ca b cb
        else if Nat.ltb kb ka then
          (kb, (cb * vb)%Qc) :: inner b'
        else
          (ka, (ca * va + cb * vb)%Qc) :: merge_weighted_vectors a' ca b' cb
    end
  in inner b.

(** Modelled from the spec: [merge(a,b)] has the union of the keys;
    coefficients add where a key appears in both. *)
Fixpoint merge_vectors (a : Vector) (b : Vector) {struct a} : Vector :=
  let fix inner (b : Vector) {struct b} : Vector :=
    match a, b with
    | [], _ => b
    | _, [] => a
    | (ka, va) :: a', (kb, vb) :: b' =>
        if Nat.ltb ka kb then (ka, va) :: merge_vectors a' b
        else if Nat.ltb kb ka then (kb, vb) :: inner b'
        else (ka, (va + vb)%Qc) :: merge_vectors a' b'
    end
  in inner b.

(** Modelled from the spec: [extend(a,b)] has the union of the keys, the
    keys that only [b] has being zero-filled. *)
Definition extend_vector (a b : Vector) : Vector :=
  merge_weighted_vectors a (qz 1) b (qz 0).

(** [math.fsum] in exact arithmetic. *)
Definition fsum (l : list float) : float := foldr Qcplus (qz 0) l.

(** ** Nodes and the registry (modules [nodes] and [context]) *)

(** Modelled from the spec: the [nodes] module is not among the sources.
    A leaf node has a label, the declared uncertainty and degrees of
    freedom, the independence flag, the correlation map (other uid to
    coefficient), the ensemble set and the optional complex-pair id.  The
    uid of a registered leaf is its key in the registry. *)
Record Leaf : Type := mkLeaf {
  Leaf_label : label;
  Leaf_u : float;
  Leaf_df : xfloat;
  Leaf_independent : bool;
  Leaf_correlation : gmap uid float;
  Leaf_ensemble : gset uid;
  Leaf_complex : option (uid * uid)
}.

(** Modelled from the spec: an intermediate node has a uid, a label and the
    cached uncertainty. *)
Record Node : Type := mkNode {
  Node_uid : uid;
  Node_label : label;
  Node_u : float
}.

(** Modelled from the spec: the registry allocates the ids of elementary and
    intermediate nodes and owns the node maps. *)
Record Context : Type := mkContext {
  _elementary_id_counter : uid;
  _intermediate_id_counter : uid;
  _registered_leaf_nodes : gmap uid Leaf;
  _registered_intermediate_nodes : gmap uid Node
}.

(** Modelled from the spec: the id of a new elementary node.  The counter
    is advanced first and its new value is the id, so the first leaf of
    a registry has the id 1. *)
Definition _next_elementary_id (c : Context) : uid * Context :=
  (S (_elementary_id_counter c),
   mkContext (S (_elementary_id_counter c)) (_intermediate_id_counter c)
     (_registered_leaf_nodes c) (_registered_intermediate_nodes c)).

(** Modelled from the spec: the id of a new intermediate node. *)
Definition _next_intermediate_id (c : Context) : uid * Context :=
  (_intermediate_id_counter c,
   mkContext (_elementary_id_counter c) (S (_intermediate_id_counter c))
     (_registered_leaf_nodes c) (_registered_intermediate_nodes c)).

Definition set_leaf_nodes (c : Context) (m : gmap uid Leaf) : Context :=
  mkContext (_elementary_id_counter c) (_intermediate_id_counter c)
    m (_registered_intermediate_nodes c).

Definition set_intermediate_nodes (c : Context) (m : gmap uid Node) : Context :=
  mkContext (_elementary_id_counter c) (_intermediate_id_counter c)
    (_registered_leaf_nodes c) m.

(** Modelled from the spec: [new_leaf(uid,label,u,df,independent)] registers
    a leaf with no ensemble and no complex-pair id.  The correlation map of
    a dependent leaf starts with the coefficient 1 of the leaf with itself
    (the spec's "self-correlation must equal 1.0", the term [i=j] of a
    covariance).  An independent leaf is "never eligible for correlation":
    it has no correlation map, and its field is empty and not read (see
    [leaf_correlation]). *)
Definition new_leaf (c : Context) (k : uid) (l : label) (u : float)
    (df : xfloat) (independent : bool) : uid * Context :=
  (k, set_leaf_nodes c
        (<[k := mkLeaf l u df independent
                 (if independent then ∅ else {[k := qz 1]}) ∅ None]>
           (_registered_leaf_nodes c))).

(** The leaf object behind a vector key.  A key always refers to a live
    object in Python; a key the registry does not know reads as the leaf of
    a constant. *)
Definition constant_leaf (l : label) : Leaf :=
  mkLeaf l (qz 0) inf true ∅ ∅ None.
Definition leaf (c : Context) (k : uid) : Leaf :=
  default (constant_leaf None) (_registered_leaf_nodes c !! k).

(** [k_i.correlation.get(k_j.uid,0.0)], for the key [k_i] of a dependent
    component: the constructors put a leaf among the dependent components
    only when it is dependent, so the map exists. *)
Definition correlation_get (c : Context) (k_i k_j : uid) : float :=
  default (qz 0) (Leaf_correlation (leaf c k_i) !! k_j).

(** The attribute [ln.correlation] of a leaf that may be independent:
    an independent leaf has no such attribute. *)
Definition leaf_correlation (c : Context) (ln : uid)
    : result (gmap uid float) :=
  if Leaf_independent (leaf c ln) then Raise AttributeError
  else Ok (Leaf_correlation (leaf c ln)).

(** ** UncertainReal *)

(** The object held in the [_node] slot. *)
Inductive node_obj : Type :=
| ConstantLeaf (l : label)
| LeafRef (k : uid)
| NodeObj (n : Node).

(** A context object, as far as [lib_real] looks at it: its identity. *)
Definition context_id := nat.

Record UncertainReal : Type := mkUncertainReal {
  _context : option context_id;
  _x : float;
  _u : option float;
  _u_components : Vector;
  _d_components : Vector;
  _i_components : Vector;
  is_elementary : bool;
  is_intermediate : bool;
  _node : option node_obj
}.

(** [UncertainReal.__init__]; the slot [_u] is left unset.  The assertion
    [not(is_elementary and is_intermediate)] cannot fail: the two flags are
    read off the class of the node. *)
Definition UncertainReal_init (context : option context_id) (x : float)
    (u_comp d_comp i_comp : Vector) (node : option node_obj) : UncertainReal :=
  match node with
  | None => mkUncertainReal context x None u_comp d_comp i_comp false false None
  | Some n =>
      mkUncertainReal context x None u_comp d_comp i_comp
        (match n with LeafRef _ => true | _ => false end)
        (match n with NodeObj _ => true | _ => false end)
        (Some n)
  end.

Definition UncertainReal_constant (x : float) (l : label) : UncertainReal :=
  UncertainReal_init None x [] [] [] (Some (ConstantLeaf l)).

Definition UncertainReal_elementary (c : Context) (x u : float) (df : xfloat)
    (l : label) (independent : bool) : result (Context * UncertainReal) :=
  if xlt df (Fin (qz 1)) then Raise RuntimeError
  else if Qcltb u (qz 0) then Raise RuntimeError
  else
    let '(k, c) := _next_elementary_id c in
    let '(ln, c) := new_leaf c k l u df independent in
    if independent then
      Ok (c, UncertainReal_init None x [(ln, u)] [] [] (Some (LeafRef ln)))
    else
      Ok (c, UncertainReal_init None x [] [(ln, u)] [] (Some (LeafRef ln))).

Definition _is_uncertain_real_constant (x : UncertainReal) : bool :=
  bool_decide (length (_u_components x) = 0) &&
  bool_decide (length (_d_components x) = 0).

(** [std_variance_real]: the loop over the dependent components, with the
    running value of [var]. *)
Fixpoint std_variance_real_d (c : Context) (var : float) (cpts : Vector)
    : float :=
  match cpts with
  | [] => var
  | (k_i, u_i) :: rest =>
      let var := (var + u_i * u_i)%Qc in
      let var :=
        (var + fsum (map (fun kj =>
                 (qz 2 * u_i * correlation_get c k_i kj.1 * kj.2)%Qc) rest))%Qc in
      std_variance_real_d c var rest
  end.

Definition std_variance_real (c : Context) (x : UncertainReal) : float :=
  let var := qz 0 in
  let var :=
    if bool_decide (length (_u_components x) ≠ 0) then
      (var + fsum (map (fun u_i => (u_i * u_i)%Qc) (values (_u_components x))))%Qc
    else var in
  if bool_decide (length (_d_components x) ≠ 0) then
    std_variance_real_d c var (_d_components x)
  else var.

(** [std_covariance_real] *)
Definition std_covariance_real (c : Context) (x1 x2 : UncertainReal) : float :=
  let cv := qz 0 in
  let cv :=
    (cv + fsum (map (fun k1 => (k1.2 * vget (_u_components x2) k1.1 (qz 0))%Qc)
                  (_u_components x1)))%Qc in
  foldl (fun cv k1 =>
           (cv + fsum (map (fun k2 =>
                    (k1.2 * correlation_get c k1.1 k2.1 * k2.2)%Qc)
                  (_d_components x2)))%Qc)
        cv (_d_components x1).

(** The assignment [self._u = u]. *)
Definition set__u (x : UncertainReal) (u : float) : UncertainReal :=
  mkUncertainReal (_context x) (_x x) (Some u) (_u_components x)
    (_d_components x) (_i_components x) (is_elementary x) (is_intermediate x)
    (_node x).

(** [self._node.u] and [self._node.df]: [None] has no attribute, and a
    [nodes.Node] has no [df]. *)
Definition node_u (c : Context) (n : option node_obj) : result float :=
  match n with
  | None => Raise AttributeError
  | Some (ConstantLeaf _) => Ok (qz 0)
  | Some (LeafRef k) => Ok (Leaf_u (leaf c k))
  | Some (NodeObj n) => Ok (Node_u n)
  end.
Definition node_df (c : Context) (n : option node_obj) : result xfloat :=
  match n with
  | None => Raise AttributeError
  | Some (ConstantLeaf _) => Ok inf
  | Some (LeafRef k) => Ok (Leaf_df (leaf c k))
  | Some (NodeObj n) => Raise AttributeError
  end.

(** Float division: Python raises on a zero divisor. *)
Definition float_div (a b : float) : result float :=
  if Qceqb b (qz 0) then Raise ZeroDivisionError else Ok (a / b)%Qc.

(** Arithmetic of the final Welch-Satterthwaite sum, where a term can be
    undefined. *)
Definition xadd (a b : xfloat) : xfloat :=
  match a, b with
  | Fin p, Fin q => Fin (p + q)%Qc
  | NaN, _ | _, NaN => NaN
  | PInf, NInf | NInf, PInf => NaN
  | PInf, _ | _, PInf => PInf
  | NInf, _ | _, NInf => NInf
  end.
Definition xdiv (a : float) (d : xfloat) : result xfloat :=
  match d with
  | Fin q => r ← float_div a q; Ok (Fin r)
  | PInf | NInf => Ok (Fin (qz 0))
  | NaN => Ok NaN
  end.

(** [named_tuples.VarianceAndDof] *)
Definition VarianceAndDof : Type := float * xfloat.

(** [l[-1] = f(l[-1])]; an empty list has no last item. *)
Fixpoint update_last (l : list float) (f : float → float)
    : result (list float) :=
  match l with
  | [] => Raise IndexError
  | [a] => Ok [f a]
  | a :: l' => l'' ← update_last l' f; Ok (a :: l'')
  end.

(** The dictionary [cpts_map] of [welch_satterthwaite]: frozen ensemble to
    the pair [[variance, dof]], in order of insertion. *)
Definition cpts_map_t : Type := list (gset uid * (float * xfloat)).

Fixpoint cpts_map_mem (e : gset uid) (m : cpts_map_t) : bool :=
  match m with
  | [] => false
  | (e', _) :: m' => bool_decide (e' = e) || cpts_map_mem e m'
  end.

(** [cpts_map[e][0] += v] *)
Fixpoint cpts_map_add (e : gset uid) (v : float) (m : cpts_map_t)
    : result cpts_map_t :=
  match m with
  | [] => Raise KeyError
  | (e', (v', d)) :: m' =>
      if bool_decide (e' = e) then Ok ((e', ((v' + v)%Qc, d)) :: m')
      else m'' ← cpts_map_add e v m'; Ok ((e', (v', d)) :: m'')
  end.

Record ws_state : Type := mkWS {
  ws_var : float;
  ws_cpts_lst : list float;
  ws_dof_lst : list xfloat;
  ws_cpts_map : cpts_map_t;
  ws_finish_complex : bool;
  ws_df : xfloat
}.

Section Library.

(** [math.sqrt] on a non-negative argument, and the interpreter's
    [__debug__] flag. *)
Context (sqrt : float → float) (debug : bool).

Definition math_sqrt (v : float) : result float :=
  if Qcltb v (qz 0) then Raise ValueError else Ok (sqrt v).

Definition UncertainReal_x (self : UncertainReal) : float := _x self.

(** The property [u]; the value is cached in the slot [_u]. *)
Definition UncertainReal_u (c : Context) (self : UncertainReal)
    : result (float * UncertainReal) :=
  match _u self with
  | Some u => Ok (u, self)
  | None =>
      if is_elementary self || is_intermediate self then
        u ← node_u c (_node self); Ok (u, set__u self u)
      else
        u ← math_sqrt (std_variance_real c self); Ok (u, set__u self u)
  end.

(** The property [v]. *)
Definition UncertainReal_v (c : Context) (self : UncertainReal)
    : result (float * UncertainReal) :=
  match _u self with
  | Some _ =>
      '(u, self) ← UncertainReal_u c self; Ok ((u * u)%Qc, self)
  | None =>
      if is_elementary self || is_intermediate self then
        u ← node_u c (_node self); Ok ((u * u)%Qc, set__u self u)
      else
        let v := std_variance_real c self in
        u ← math_sqrt v; Ok (v, set__u self u)
  end.

(** [welch_satterthwaite]: the inner loop over the influences [k_j] that
    follow [k_i]. *)
Fixpoint ws_inner (c : Context) (k_i : uid) (u_i : float)
    (nu_i_infinite : bool) (ensemble_i : gset uid)
    (complex_id : option (uid * uid)) (rest : Vector) (st : ws_state)
    : result ws_state :=
  match rest with
  | [] => Ok st
  | (k_j, u_j) :: rest' =>
      match Leaf_correlation (leaf c k_i) !! k_j with
      | None => ws_inner c k_i u_i nu_i_infinite ensemble_i complex_id rest' st
      | Some r =>
          let covar_ij := (qz 2 * u_i * r * u_j)%Qc in
          let var := (ws_var st + covar_ij)%Qc in
          if nu_i_infinite && is_infinity (Leaf_df (leaf c k_j)) then
            ws_inner c k_i u_i nu_i_infinite ensemble_i complex_id rest'
              (mkWS var (ws_cpts_lst st) (ws_dof_lst st) (ws_cpts_map st)
                 (ws_finish_complex st) (ws_df st))
          else if bool_decide (k_j ∈ ensemble_i) then
            m ← cpts_map_add ensemble_i covar_ij (ws_cpts_map st);
            ws_inner c k_i u_i nu_i_infinite ensemble_i complex_id rest'
              (mkWS var (ws_cpts_lst st) (ws_dof_lst st) m
                 (ws_finish_complex st) (ws_df st))
          else if bool_decide (complex_id = Some (k_i, k_j)) then
            l ← update_last (ws_cpts_lst st) (fun v => (v + covar_ij)%Qc);
            ws_inner c k_i u_i nu_i_infinite ensemble_i complex_id rest'
              (mkWS var l (ws_dof_lst st) (ws_cpts_map st)
                 (ws_finish_complex st) (ws_df st))
          else
            (* Correlation with no excuse, illegal! *)
            let df := nan in
            _ ← py_assert debug false;
            ws_inner c k_i u_i nu_i_infinite ensemble_i complex_id rest'
              (mkWS var (ws_cpts_lst st) (ws_dof_lst st) (ws_cpts_map st)
                 (ws_finish_complex st) df)
      end
  end.

(** The three-way update of the component lists that the loop body and the
    treatment of the last key share. *)
Definition ws_component (ensemble_i : gset uid) (v_i : float) (df_i : xfloat)
    (st : ws_state) : result ws_state :=
  if cpts_map_mem ensemble_i (ws_cpts_map st) then
    m ← cpts_map_add ensemble_i v_i (ws_cpts_map st);
    Ok (mkWS (ws_var st) (ws_cpts_lst st) (ws_dof_lst st) m
          (ws_finish_complex st) (ws_df st))
  else if ws_finish_complex st then
    l ← update_last (ws_cpts_lst st) (fun v_old => (v_old + v_i)%Qc);
    Ok (mkWS (ws_var st) l (ws_dof_lst st) (ws_cpts_map st)
          (ws_finish_complex st) (ws_df st))
  else
    Ok (mkWS (ws_var st) (ws_cpts_lst st ++ [v_i]) (ws_dof_lst st ++ [df_i])
          (ws_cpts_map st) (ws_finish_complex st) (ws_df st)).

(** The loop over [d_keys[:-1]], followed by the last key. *)
Fixpoint ws_outer (c : Context) (cpts : Vector) (st : ws_state)
    : result ws_state :=
  match cpts with
  | [] => Ok st
  | (k_i, u_i) :: rest =>
      let v_i := (u_i * u_i)%Qc in
      let df_i := Leaf_df (leaf c k_i) in
      let ensemble_i := Leaf_ensemble (leaf c k_i) in
      let st := mkWS (ws_var st + v_i)%Qc (ws_cpts_lst st) (ws_dof_lst st)
                  (ws_cpts_map st) (ws_finish_complex st) (ws_df st) in
      match rest with
      | [] =>
          (* the final item of the sequence *)
          ws_component ensemble_i v_i df_i st
      | (k_next, _) :: _ =>
          let complex_id := Leaf_complex (leaf c k_i) in
          let st :=
            if bool_decide (size ensemble_i ≠ 0) &&
               negb (cpts_map_mem ensemble_i (ws_cpts_map st))
            then mkWS (ws_var st) (ws_cpts_lst st) (ws_dof_lst st)
                   (ws_cpts_map st ++ [(ensemble_i, (qz 0, df_i))])
                   (ws_finish_complex st) (ws_df st)
            else st in
          st ← ws_component ensemble_i v_i df_i st;
          let st := mkWS (ws_var st) (ws_cpts_lst st) (ws_dof_lst st)
                      (ws_cpts_map st)
                      (bool_decide (complex_id = Some (k_i, k_next)))
                      (ws_df st) in
          st ← ws_inner c k_i u_i (is_infinity df_i) ensemble_i complex_id
                 rest st;
          ws_outer c rest st
      end
  end.

(** The loop over the independent components. *)
Definition ws_independent (c : Context) (u_cpts : Vector) (st : ws_state)
    : ws_state :=
  foldl (fun st ku =>
           let v_i := (ku.2 * ku.2)%Qc in
           mkWS (ws_var st + v_i)%Qc (ws_cpts_lst st ++ [v_i])
             (ws_dof_lst st ++ [Leaf_df (leaf c ku.1)]) (ws_cpts_map st)
             (ws_finish_complex st) (ws_df st))
        st u_cpts.

(** The final sum over the components with finite degrees of freedom. *)
Fixpoint ws_den (var : float) (cpts : list (float * xfloat)) (den : xfloat)
    : result xfloat :=
  match cpts with
  | [] => Ok den
  | (v_i, dof_i) :: cpts' =>
      if negb (is_infinity dof_i) then
        u2 ← float_div v_i var;
        t ← xdiv (u2 * u2)%Qc dof_i;
        ws_den var cpts' (xadd den t)
      else ws_den var cpts' den
  end.

Definition welch_satterthwaite (c : Context) (x : UncertainReal)
    : result (VarianceAndDof * UncertainReal) :=
  if is_elementary x then
    '(v, x) ← UncertainReal_v c x;
    df ← node_df c (_node x);
    Ok ((v, df), x)
  else if _is_uncertain_real_constant x then
    Ok ((qz 0, inf), x)
  else
    let u_cpts := _u_components x in
    let u_dof := map (fun k_i => Leaf_df (leaf c k_i)) (keys u_cpts) in
    let d_cpts := _d_components x in
    let d_dof := map (fun k_i => Leaf_df (leaf c k_i)) (keys d_cpts) in
    let degrees_of_freedom := u_dof ++ d_dof in
    if forallb (fun d => xeqb d inf) degrees_of_freedom then
      '(v, x) ← UncertainReal_v c x; Ok ((v, inf), x)
    else
      let st := mkWS (qz 0) [] [] [] false (Fin (qz 0)) in
      let st := ws_independent c u_cpts st in
      st ← (if bool_decide (length d_cpts ≠ 0) then ws_outer c d_cpts st
            else Ok st);
      let cpts_lst := ws_cpts_lst st ++ map (fun e => e.2.1) (ws_cpts_map st) in
      let dof_lst := ws_dof_lst st ++ map (fun e => e.2.2) (ws_cpts_map st) in
      let var := ws_var st in
      let df := if Qceqb var (qz 0) then nan else ws_df st in
      if is_undefined df then Ok ((var, nan), x)
      else
        den ← ws_den var (zip cpts_lst dof_lst) (Fin (qz 0));
        match den with
        | Fin d =>
            if Qceqb d (qz 0) then Ok ((var, inf), x)
            else Ok ((var, Fin (qz 1 / d)%Qc), x)
        | PInf | NInf => Ok ((var, Fin (qz 0)), x)
        | NaN => Ok ((var, nan), x)
        end.

(** The property [df]. *)
Definition UncertainReal_df (c : Context) (self : UncertainReal)
    : result (xfloat * UncertainReal) :=
  if is_elementary self then
    df ← node_df c (_node self); Ok (df, self)
  else
    '(vd, self) ← welch_satterthwaite c self; Ok (vd.2, self).

(** The classmethod [intermediate]: a new registration allocates an id,
    creates the node and seeds the intermediate components with it; an
    elementary or already registered number is left alone. *)
Definition UncertainReal_intermediate (c : Context) (un : UncertainReal)
    (l : label) : result (Context * UncertainReal) :=
  if negb (is_elementary un) then
    if negb (is_intermediate un) then
      let '(k, c) := _next_intermediate_id c in
      '(u, un) ← UncertainReal_u c un;
      let node := mkNode k l u in
      let un :=
        mkUncertainReal (_context un) (_x un) (_u un) (_u_components un)
          (_d_components un)
          (merge_vectors (_i_components un) [(k, u)])
          (is_elementary un) true (Some (NodeObj node)) in
      Ok (set_intermediate_nodes c
            (<[k := node]> (_registered_intermediate_nodes c)), un)
    else Ok (c, un)
  else Ok (c, un).

(** ** Arithmetic *)

(** The right operand of a binary operation, by its class: an uncertain
    real or a plain real number.  (Complex operands go through the
    [_re_z] helpers, which build an uncertain complex number with the
    context's factory; they are not part of this development.) *)
Inductive operand : Type :=
| OpUncertainReal (x : UncertainReal)
| OpReal (r : float).

(** What an operation returns: [_pow] may hand back a plain float. *)
Inductive pyvalue : Type :=
| PyFloat (r : float)
| PyUncertainReal (x : UncertainReal).

Definition UncertainReal_neg (self : UncertainReal) : UncertainReal :=
  UncertainReal_init (_context self) (- _x self)%Qc
    (scale_vector (_u_components self) (qz (-1)))
    (scale_vector (_d_components self) (qz (-1)))
    (scale_vector (_i_components self) (qz (-1))) None.

Definition UncertainReal_pos (self : UncertainReal) : UncertainReal :=
  UncertainReal_init (_context self) (_x self)
    (_u_components self) (_d_components self) (_i_components self) None.

Definition _add (lhs : UncertainReal) (rhs : operand) : UncertainReal :=
  match rhs with
  | OpUncertainReal rhs =>
      UncertainReal_init (_context lhs) (_x lhs + _x rhs)%Qc
        (merge_vectors (_u_components lhs) (_u_components rhs))
        (merge_vectors (_d_components lhs) (_d_components rhs))
        (merge_vectors (_i_components lhs) (_i_components rhs)) None
  | OpReal rhs =>
      if Qceqb rhs (qz 0) then lhs
      else
        UncertainReal_init (_context lhs) (_x lhs + rhs)%Qc
          (scale_vector (_u_components lhs) (qz 1))
          (scale_vector (_d_components lhs) (qz 1))
          (scale_vector (_i_components lhs) (qz 1)) None
  end.

Definition _sub (lhs : UncertainReal) (rhs : operand) : UncertainReal :=
  match rhs with
  | OpUncertainReal rhs =>
      UncertainReal_init (_context lhs) (_x lhs - _x rhs)%Qc
        (merge_weighted_vectors (_u_components lhs) (qz 1)
           (_u_components rhs) (qz (-1)))
        (merge_weighted_vectors (_d_components lhs) (qz 1)
           (_d_components rhs) (qz (-1)))
        (merge_weighted_vectors (_i_components lhs) (qz 1)
           (_i_components rhs) (qz (-1))) None
  | OpReal rhs =>
      if Qceqb rhs (qz 0) then lhs
      else
        UncertainReal_init (_context lhs) (_x lhs - rhs)%Qc
          (scale_vector (_u_components lhs) (qz 1))
          (scale_vector (_d_components lhs) (qz 1))
          (scale_vector (_i_components lhs) (qz 1)) None
  end.

Definition _mul (lhs : UncertainReal) (rhs : operand) : UncertainReal :=
  match rhs with
  | OpUncertainReal rhs =>
      let l := _x lhs in
      let r := _x rhs in
      UncertainReal_init (_context lhs) (l * r)%Qc
        (merge_weighted_vectors (_u_components lhs) r (_u_components rhs) l)
        (merge_weighted_vectors (_d_components lhs) r (_d_components rhs) l)
        (merge_weighted_vectors (_i_components lhs) r (_i_components rhs) l)
        None
  | OpReal rhs =>
      if Qceqb rhs (qz 1) then lhs
      else
        UncertainReal_init (_context lhs) (_x lhs * rhs)%Qc
          (scale_vector (_u_components lhs) rhs)
          (scale_vector (_d_components lhs) rhs)
          (scale_vector (_i_components lhs) rhs) None
  end.

Definition _div (lhs : UncertainReal) (rhs : operand) : result UncertainReal :=
  match rhs with
  | OpUncertainReal rhs =>
      let r := _x rhs in
      let l := _x lhs in
      y ← float_div l r;
      dy_dl ← float_div (qz 1) r;
      q ← float_div y r;
      let dy_dr := (- q)%Qc in
      Ok (UncertainReal_init (_context lhs) y
            (merge_weighted_vectors (_u_components lhs) dy_dl
               (_u_components rhs) dy_dr)
            (merge_weighted_vectors (_d_components lhs) dy_dl
               (_d_components rhs) dy_dr)
            (merge_weighted_vectors (_i_components lhs) dy_dl
               (_i_components rhs) dy_dr) None)
  | OpReal rhs =>
      if Qceqb rhs (qz 1) then Ok lhs
      else
        let l := _x lhs in
        y ← float_div l rhs;
        dy_dl ← float_div (qz 1) rhs;
        Ok (UncertainReal_init (_context lhs) y
              (scale_vector (_u_components lhs) dy_dl)
              (scale_vector (_d_components lhs) dy_dl)
              (scale_vector (_i_components lhs) dy_dl) None)
  end.

(** Float exponentiation [l**r] and [math.log], [math.atan2]: primitives of
    the interpreter; the first two have their own domain errors. *)
Context (float_pow : float → float → result float)
        (math_log : float → result float)
        (math_atan2 : float → float → float).

Definition _pow (lhs : UncertainReal) (rhs : operand) : result pyvalue :=
  match rhs with
  | OpUncertainReal rhs =>
      let r := _x rhs in
      let l := _x lhs in
      y ← float_pow l r;
      p ← float_pow l (r - qz 1)%Qc;
      let dy_dl := (r * p)%Qc in
      dy_dr ← (if negb (Qceqb l (qz 0)) then
                 g ← math_log (float_abs l); Ok (g * y)%Qc
               else Ok (qz 0));
      Ok (PyUncertainReal
            (UncertainReal_init (_context lhs) y
               (merge_weighted_vectors (_u_components lhs) dy_dl
                  (_u_components rhs) dy_dr)
               (merge_weighted_vectors (_d_components lhs) dy_dl
                  (_d_components rhs) dy_dr)
               (merge_weighted_vectors (_i_components lhs) dy_dl
                  (_i_components rhs) dy_dr) None))
  | OpReal rhs =>
      if Qceqb rhs (qz 0) then Ok (PyFloat (qz 1))
      else if Qceqb rhs (qz 1) then Ok (PyUncertainReal lhs)
      else
        let l := _x lhs in
        let r := rhs in
        y ← float_pow l r;
        p ← float_pow l (r - qz 1)%Qc;
        let dy_dl := (r * p)%Qc in
        Ok (PyUncertainReal
              (UncertainReal_init (_context lhs) y
                 (scale_vector (_u_components lhs) dy_dl)
                 (scale_vector (_d_components lhs) dy_dl)
                 (scale_vector (_i_components lhs) dy_dl) None))
  end.

(** [UncertainReal.__pow__]: dispatch on the class of the exponent. *)
Definition UncertainReal_pow (self : UncertainReal) (rhs : operand)
    : result pyvalue :=
  _pow self rhs.

Definition UncertainReal_magnitude (self : UncertainReal)
    : result UncertainReal :=
  let x := _x self in
  if Qceqb x (qz 0) then Raise ZeroDivisionError
  else
    let dy_dx := copysign1 x in
    Ok (UncertainReal_init (_context self) (float_abs x)
          (scale_vector (_u_components self) dy_dx)
          (scale_vector (_d_components self) dy_dx)
          (scale_vector (_i_components self) dy_dx) None).

Definition _atan2_re_re (lhs rhs : UncertainReal) : result UncertainReal :=
  let context := _context lhs in
  _ ← py_assert debug (bool_decide (context = _context rhs));
  let x := _x rhs in
  let y := _x lhs in
  let den := (x * x + y * y)%Qc in
  '(dz_dx, dz_dy) ←
     (if Qceqb den (qz 0) then Ok (qz 0, qz 0)
      else a ← float_div (- y)%Qc den; b ← float_div x den; Ok (a, b));
  Ok (UncertainReal_init (_context lhs) (math_atan2 y x)
        (merge_weighted_vectors (_u_components lhs) dz_dy
           (_u_components rhs) dz_dx)
        (merge_weighted_vectors (_d_components lhs) dz_dy
           (_d_components rhs) dz_dx)
        (merge_weighted_vectors (_i_components lhs) dz_dy
           (_i_components rhs) dz_dx) None).

(** ** Correlation *)

(** The registered leaf in the [_node] slot of an elementary number.  The
    flag [is_elementary] is only ever set together with such a node; any
    other content of the slot has not the attributes of a registered
    leaf. *)
Definition elementary_leaf (x : UncertainReal) : result uid :=
  match _node x with
  | Some (LeafRef k) => Ok k
  | _ => Raise AttributeError
  end.

(** [ln.correlation[k] = r] on the leaf object [ln]. *)
Definition set_leaf_correlation (c : Context) (ln k : uid) (r : float)
    : Context :=
  let l := leaf c ln in
  set_leaf_nodes c
    (<[ln := mkLeaf (Leaf_label l) (Leaf_u l) (Leaf_df l)
               (Leaf_independent l) (<[k := r]> (Leaf_correlation l))
               (Leaf_ensemble l) (Leaf_complex l)]>
       (_registered_leaf_nodes c)).

(** [UncertainReal.__repr__], as far as it can fail: the properties [x],
    [u], [df] and [label] are read before the text is formatted ([label]
    catches its own AttributeError).  The text itself is not modelled. *)
Definition UncertainReal_repr (c : Context) (self : UncertainReal)
    : result unit :=
  '(_, self) ← UncertainReal_u c self;
  '(_, _) ← UncertainReal_df c self;
  Ok tt.

(** [set_correlation_real].  The message of the last error is formatted
    with [{!r}] of both arguments before the error is raised, so an
    exception of [repr(x1)] or [repr(x2)] comes first. *)
Definition set_correlation_real (c : Context) (x1 x2 : UncertainReal)
    (r : float) : result Context :=
  if is_elementary x1 && is_elementary x2 then
    ln1 ← elementary_leaf x1;
    ln2 ← elementary_leaf x2;
    if negb (Leaf_independent (leaf c ln1)) &&
       negb (Leaf_independent (leaf c ln2)) then
      if bool_decide (ln1 = ln2) && negb (Qceqb r (qz 1)) then
        Raise RuntimeError
      else
        let c := set_leaf_correlation c ln1 ln2 r in
        let c := set_leaf_correlation c ln2 ln1 r in
        Ok c
    else Raise RuntimeError
  else
    _ ← UncertainReal_repr c x1;
    _ ← UncertainReal_repr c x2;
    Raise RuntimeError.

Definition get_correlation_real (c : Context) (x1 x2 : UncertainReal)
    : result float :=
  if is_elementary x1 && is_elementary x2 then
    ln1 ← elementary_leaf x1;
    ln2 ← elementary_leaf x2;
    if bool_decide (ln1 = ln2) then Ok (qz 1)
    else
      row ← leaf_correlation c ln1;
      Ok (default (qz 0) (row !! ln2))
  else
    let v1 := std_variance_real c x1 in
    let v2 := std_variance_real c x2 in
    let num := std_covariance_real c x1 x2 in
    den ← math_sqrt (v1 * v2)%Qc;
    if negb (Qceqb num (qz 0)) then float_div num den else Ok (qz 0).

(** ** UncertainComplex *)

(** [named_tuples.VarianceCovariance(rr,ri,ir,ii)] *)
Record VarianceCovariance : Type := mkVarianceCovariance {
  rr : float;
  ri : float;
  ir : float;
  ii : float
}.

Record UncertainComplex : Type := mkUncertainComplex {
  real : UncertainReal;
  imag : UncertainReal;
  _value : float * float;
  _v : option VarianceCovariance;
  _label : option label;
  uc_context : option context_id;
  uc_is_elementary : bool;
  uc_is_intermediate : bool
}.

(** [UncertainComplex.__init__]; the slots [_v] and [_label] are left
    unset.  The source calls [_is_uncertain_real_constant] without the
    prefix [rlib.]; here it is read as the function of [lib_real]. *)
Definition UncertainComplex_init (r i : UncertainReal)
    : result UncertainComplex :=
  _ ← py_assert debug
        (eqb (is_elementary i) (is_elementary r) ||
         (is_elementary i && _is_uncertain_real_constant r) ||
         (is_elementary r && _is_uncertain_real_constant i));
  _ ← py_assert debug (eqb (is_intermediate i) (is_intermediate r));
  _ ← py_assert debug (bool_decide (_context i = _context r));
  Ok (mkUncertainComplex r i (_x r, _x i) None None (_context r)
        (is_elementary r || is_elementary i) (is_intermediate r)).

(** [std_variance_covariance_complex].  The source spells the last callee
    [real.std_covariance_real]; [lib_complex] imports the module
    [lib_real] under the name [rlib], and [real] is read as that module.
    The properties [re.v] and [im.v] fill the caches of the two
    components. *)
Definition std_variance_covariance_complex (c : Context)
    (x : UncertainComplex) : result (VarianceCovariance * UncertainComplex) :=
  let re := real x in
  let im := imag x in
  '(v_r, re) ← UncertainReal_v c re;
  '(v_i, im) ← UncertainReal_v c im;
  let cv := std_covariance_real c re im in
  Ok (mkVarianceCovariance v_r cv cv v_i,
      mkUncertainComplex re im (_value x) (_v x) (_label x) (uc_context x)
        (uc_is_elementary x) (uc_is_intermediate x)).

(** The property [v]; the matrix is cached in the slot [_v]. *)
Definition UncertainComplex_v (c : Context) (self : UncertainComplex)
    : result (VarianceCovariance * UncertainComplex) :=
  match _v self with
  | Some cv => Ok (cv, self)
  | None =>
      '(cv, self) ← std_variance_covariance_complex c self;
      Ok (cv,
          mkUncertainComplex (real self) (imag self) (_value self) (Some cv)
            (_label self) (uc_context self) (uc_is_elementary self)
            (uc_is_intermediate self))
  end.

(** [ln.complex = complex_id] on the leaf object [ln]. *)
Definition set_leaf_complex (c : Context) (ln : uid) (complex_id : uid * uid)
    : Context :=
  let l := leaf c ln in
  set_leaf_nodes c
    (<[ln := mkLeaf (Leaf_label l) (Leaf_u l) (Leaf_df l)
               (Leaf_independent l) (Leaf_correlation l)
               (Leaf_ensemble l) (Some complex_id)]>
       (_registered_leaf_nodes c)).

(** ["{}_re".format(label)] and ["{}_im".format(label)] *)
Definition label_suffix (l : label) (suffix : string) : label :=
  match l with
  | None => None
  | Some s => Some (s +:+ suffix)
  end.

(** [UncertainComplex.elementary]: the two leaves are linked by the
    complex-pair id, and correlated when [r] is given; the coefficient is
    written into the maps [real._node.correlation] and
    [imag._node.correlation], which independent leaves do not have. *)
Definition UncertainComplex_elementary (c : Context) (z : float * float)
    (u_r u_i : float) (r : option float) (df : xfloat) (l : label)
    (independent : bool) : result (Context * UncertainComplex) :=
  let label_r := label_suffix l "_re" in
  let label_i := label_suffix l "_im" in
  '(c, re) ← UncertainReal_elementary c z.1 u_r df label_r independent;
  '(c, im) ← UncertainReal_elementary c z.2 u_i df label_i independent;
  k_re ← elementary_leaf re;
  k_im ← elementary_leaf im;
  let complex_id := (k_re, k_im) in
  let c := set_leaf_complex c k_re complex_id in
  let c := set_leaf_complex c k_im complex_id in
  c ← match r with
      | Some r =>
          _ ← leaf_correlation c k_re;
          let c := set_leaf_correlation c k_re k_im r in
          _ ← leaf_correlation c k_im;
          Ok (set_leaf_correlation c k_im k_re r)
      | None => Ok c
      end;
  ucomplex ← UncertainComplex_init re im;
  Ok (c, mkUncertainComplex (real ucomplex) (imag ucomplex) (_value ucomplex)
           (_v ucomplex) (Some l) (uc_context ucomplex) true
           (uc_is_intermediate ucomplex)).

(** ** Willink-Hall degrees of freedom *)

(** The names [is_infinity] and [Vector] that [willink_hall] and its
    worker class use are not bound in [lib_complex]; they are read as
    [GTC.is_infinity] and [vector.Vector]. *)

(** [v[k]]: a missing key is an error. *)
Fixpoint vlookup (v : Vector) (k : uid) : result float :=
  match v with
  | [] => Raise KeyError
  | (k', x) :: v' => if Nat.eqb k' k then Ok x else vlookup v' k
  end.

(** Modelled from the spec: [Vector.append(k,x)] adds an entry at the end of
    the vector. *)
Definition vappend (v : Vector) (k : uid) (x : float) : Vector := v ++ [(k, x)].

Definition fsumM (l : list (result float)) : result float :=
  foldr (fun m acc => x ← m; s ← acc; Ok (x + s)%Qc) (Ok (qz 0)) l.

(** [_covariance_submatrix]: the loop over the keys, [rest] being the keys
    from the current one on. *)
Fixpoint _covariance_submatrix_loop (c : Context) (u_re u_im : Vector)
    (all_keys rest : list uid) (v : float * float * float)
    : result (float * float * float) :=
  match rest with
  | [] => Ok v
  | x_i :: rest' =>
      let '(v_rr, v_ri, v_ii) := v in
      x_u_re ← vlookup u_re x_i;
      let v_rr := (v_rr + x_u_re * x_u_re)%Qc in
      x_u_im ← vlookup u_im x_i;
      let v_ii := (v_ii + x_u_im * x_u_im)%Qc in
      let v_ri := (v_ri + x_u_re * x_u_im)%Qc in
      s_rr ← fsumM (map (fun y_i =>
                u ← vlookup u_re y_i;
                Ok (qz 2 * x_u_re * u * correlation_get c x_i y_i)%Qc) rest');
      let v_rr := (v_rr + s_rr)%Qc in
      s_ii ← fsumM (map (fun y_i =>
                u ← vlookup u_im y_i;
                Ok (qz 2 * x_u_im * u * correlation_get c x_i y_i)%Qc) rest');
      let v_ii := (v_ii + s_ii)%Qc in
      s_ri ← fsumM (map (fun y_i =>
                u ← vlookup u_im y_i;
                Ok (x_u_re * u * correlation_get c x_i y_i)%Qc)
              (filter (fun y_i => y_i ≠ x_i) all_keys));
      let v_ri := (v_ri + s_ri)%Qc in
      _covariance_submatrix_loop c u_re u_im all_keys rest' (v_rr, v_ri, v_ii)
  end.

Definition _covariance_submatrix (c : Context) (u_re u_im : Vector)
    : result (float * float * float) :=
  _ ← py_assert debug (bool_decide (keys u_re = keys u_im));
  _covariance_submatrix_loop c u_re u_im (keys u_re) (keys u_re)
    (qz 0, qz 0, qz 0).

(** The worker class [_EnsembleComponents] and its class attributes, the
    three running sums. *)
Record _EnsembleComponents : Type := mkEnsembleComponents {
  ec_u_re : Vector;
  ec_u_im : Vector;
  ec_nu : xfloat
}.

Record running_sums : Type := mkSums {
  sum_sq_u11 : xfloat;
  sum_sq_diag : xfloat;
  sum_sq_u22 : xfloat
}.

Definition add_term (s : running_sums) (v_11 v_12 v_22 : float) (nu : xfloat)
    : result running_sums :=
  t11 ← xdiv (v_11 * v_11)%Qc nu;
  t22 ← xdiv (v_22 * v_22)%Qc nu;
  td ← xdiv (v_11 * v_22 + v_12 * v_12)%Qc nu;
  Ok (mkSums (xadd (sum_sq_u11 s) t11) (xadd (sum_sq_diag s) td)
        (xadd (sum_sq_u22 s) t22)).

Definition accumulate (c : Context) (self : _EnsembleComponents)
    (s : running_sums) : result running_sums :=
  '(v_11, v_12, v_22) ← _covariance_submatrix c (ec_u_re self) (ec_u_im self);
  add_term s v_11 v_12 v_22 (ec_nu self).

(** The dictionary [ensemble_reg], in order of insertion. *)
Definition ensemble_reg_t : Type := list (gset uid * _EnsembleComponents).

Fixpoint ensemble_reg_get (e : gset uid) (m : ensemble_reg_t)
    : option _EnsembleComponents :=
  match m with
  | [] => None
  | (e', ec) :: m' =>
      if bool_decide (e' = e) then Some ec else ensemble_reg_get e m'
  end.

Fixpoint ensemble_reg_set (e : gset uid) (ec : _EnsembleComponents)
    (m : ensemble_reg_t) : ensemble_reg_t :=
  match m with
  | [] => [(e, ec)]
  | (e', ec') :: m' =>
      if bool_decide (e' = e) then (e', ec) :: m'
      else (e', ec') :: ensemble_reg_set e ec m'
  end.

(** The loop that looks for a correlation between the complex influence
    [(id_re,id_im)] and the influences that follow it: [true] when the
    calculation of the degrees of freedom is illegal. *)
Fixpoint wh_illegal (c : Context) (id_re id_im : uid) (i_re_infinite : bool)
    (ensemble_i : gset uid) (others : list uid) : bool :=
  match others with
  | [] => false
  | j_id :: others' =>
      if i_re_infinite && is_infinity (Leaf_df (leaf c j_id)) then
        wh_illegal c id_re id_im i_re_infinite ensemble_i others'
      else if bool_decide (j_id ∉ ensemble_i) &&
              (bool_decide (is_Some (Leaf_correlation (leaf c id_re) !! j_id))
               || bool_decide
                    (is_Some (Leaf_correlation (leaf c id_im) !! j_id)))
      then true
      else wh_illegal c id_re id_im i_re_infinite ensemble_i others'
  end.

Record wh_state : Type := mkWH {
  wh_skip_imaginary : bool;
  wh_ensemble_reg : ensemble_reg_t;
  wh_sums : running_sums
}.

(** The loop over the dependent influences [ids_d]; [None] stands for the
    early return with undefined degrees of freedom. *)
Fixpoint wh_dependent (c : Context) (re_d im_d : Vector) (ids : list uid)
    (st : wh_state) : result (option wh_state) :=
  match ids with
  | [] => Ok (Some st)
  | id_re :: rest =>
      if wh_skip_imaginary st then
        wh_dependent c re_d im_d rest
          (mkWH false (wh_ensemble_reg st) (wh_sums st))
      else
        let nu_i := Leaf_df (leaf c id_re) in
        let i_re_infinite := is_infinity nu_i in
        let ensemble_i := Leaf_ensemble (leaf c id_re) in
        let reg :=
          if bool_decide (size ensemble_i ≠ 0) &&
             bool_decide (ensemble_reg_get ensemble_i (wh_ensemble_reg st) = None)
          then wh_ensemble_reg st ++ [(ensemble_i, mkEnsembleComponents [] [] nu_i)]
          else wh_ensemble_reg st in
        let components_i :=
          default (mkEnsembleComponents [] [] nu_i)
            (ensemble_reg_get ensemble_i reg) in
        r ← (if bool_decide (is_Some (Leaf_complex (leaf c id_re))) then
               match rest with
               | [] => Raise IndexError
               | id_im :: others =>
                   if wh_illegal c id_re id_im i_re_infinite ensemble_i others
                   then Ok None
                   else if negb i_re_infinite then
                     a ← vlookup re_d id_re;
                     b ← vlookup re_d id_im;
                     a' ← vlookup im_d id_re;
                     b' ← vlookup im_d id_im;
                     Ok (Some (true,
                           mkEnsembleComponents
                             (vappend (vappend (ec_u_re components_i) id_re a)
                                id_im b)
                             (vappend (vappend (ec_u_im components_i) id_re a')
                                id_im b')
                             (ec_nu components_i)))
                   else Ok (Some (true, components_i))
               end
             else
               _ ← py_assert debug
                     (i_re_infinite || bool_decide (rest = []));
               if negb i_re_infinite then
                 a ← vlookup re_d id_re;
                 a' ← vlookup im_d id_re;
                 Ok (Some (false,
                       mkEnsembleComponents
                         (vappend (ec_u_re components_i) id_re a)
                         (vappend (ec_u_im components_i) id_re a')
                         (ec_nu components_i)))
               else Ok (Some (false, components_i)));
        match r with
        | None => Ok None
        | Some (skip, components_i) =>
            if bool_decide (size ensemble_i = 0) then
              s ← accumulate c components_i (wh_sums st);
              wh_dependent c re_d im_d rest (mkWH skip reg s)
            else
              wh_dependent c re_d im_d rest
                (mkWH skip (ensemble_reg_set ensemble_i components_i reg)
                   (wh_sums st))
        end
  end.

(** The loop over the independent influences. *)
Fixpoint wh_independent (c : Context) (re_u im_u : Vector) (ids : list uid)
    (s : running_sums) : result running_sums :=
  match ids with
  | [] => Ok s
  | id_re :: rest =>
      let nu_i := Leaf_df (leaf c id_re) in
      if negb (is_infinity nu_i) then
        a ← vlookup re_u id_re;
        b ← vlookup im_u id_re;
        let v_11 := (a * a)%Qc in
        let v_22 := (b * b)%Qc in
        let v_12 := (a * b)%Qc in
        s ← add_term s v_11 v_12 v_22 nu_i;
        wh_independent c re_u im_u rest s
      else wh_independent c re_u im_u rest s
  end.

Definition _is_uncertain_complex_constant (z : UncertainComplex) : bool :=
  _is_uncertain_real_constant (real z) && _is_uncertain_real_constant (imag z).

(** [2.0*s/u2_bar] and [s/u2_bar] on a running sum. *)
Definition xscale_div (k : float) (s : xfloat) (d : float) : result xfloat :=
  match s with
  | Fin q => r ← float_div (k * q)%Qc d; Ok (Fin r)
  | other => if Qceqb d (qz 0) then Raise ZeroDivisionError else Ok other
  end.

Definition willink_hall (c : Context) (x : UncertainComplex)
    : result (VarianceCovariance * xfloat * UncertainComplex) :=
  if _is_uncertain_complex_constant x then
    Ok (mkVarianceCovariance (qz 0) (qz 0) (qz 0) (qz 0), inf, x)
  else if is_elementary (real x) then
    _ ← py_assert debug (is_elementary (imag x));
    '(cv, x) ← std_variance_covariance_complex c x;
    '(df, _) ← UncertainReal_df c (real x);
    Ok (cv, df, x)
  else
    let re_u := extend_vector (_u_components (real x)) (_u_components (imag x)) in
    let im_u := extend_vector (_u_components (imag x)) (_u_components (real x)) in
    let re_d := extend_vector (_d_components (real x)) (_d_components (imag x)) in
    let im_d := extend_vector (_d_components (imag x)) (_d_components (real x)) in
    let ids_u := keys re_u in
    let ids_d := keys re_d in
    let degrees_of_freedom_u := map (fun k_i => Leaf_df (leaf c k_i)) ids_u in
    let degrees_of_freedom_d := map (fun k_i => Leaf_df (leaf c k_i)) ids_d in
    if forallb (fun d => xeqb d inf) degrees_of_freedom_u &&
       forallb (fun d => xeqb d inf) degrees_of_freedom_d then
      '(cv, x) ← std_variance_covariance_complex c x; Ok (cv, inf, x)
    else
      let sums := mkSums (Fin (qz 0)) (Fin (qz 0)) (Fin (qz 0)) in
      sums ← wh_independent c re_u im_u ids_u sums;
      r ← (if bool_decide (length ids_d ≠ 0) then
             r ← wh_dependent c re_d im_d ids_d (mkWH false [] sums);
             match r with
             | None => Ok None
             | Some st =>
                 s ← foldl (fun acc ec => s ← acc; accumulate c ec.2 s)
                       (Ok (wh_sums st)) (wh_ensemble_reg st);
                 Ok (Some s)
             end
           else Ok (Some sums));
      '(var, x) ← std_variance_covariance_complex c x;
      match r with
      | None => Ok (var, nan, x)
      | Some sums =>
          let sum_u11 := rr var in
          let sum_u12 := ri var in
          let sum_u22 := ii var in
          if Qceqb sum_u11 (qz 0) && Qceqb sum_u12 (qz 0) &&
             Qceqb sum_u22 (qz 0) then Ok (var, nan, x)
          else
            let u2_bar := ((sum_u11 + sum_u22) * (sum_u11 + sum_u22) / qz 4)%Qc in
            A ← float_div (qz 2 * sum_u11 * sum_u11)%Qc u2_bar;
            D ← float_div (sum_u11 * sum_u22 + sum_u12 * sum_u12)%Qc u2_bar;
            F ← float_div (qz 2 * sum_u22 * sum_u22)%Qc u2_bar;
            a ← xscale_div (qz 2) (sum_sq_u11 sums) u2_bar;
            d ← xscale_div (qz 1) (sum_sq_diag sums) u2_bar;
            f ← xscale_div (qz 2) (sum_sq_u22 sums) u2_bar;
            let num := (A + D + F)%Qc in
            let den := xadd (xadd a d) f in
            match den with
            | Fin q =>
                if Qceqb q (qz 0) then Ok (var, inf, x)
                else Ok (var, Fin (num / q)%Qc, x)
            | PInf | NInf => Ok (var, Fin (qz 0), x)
            | NaN => Ok (var, nan, x)
            end
      end.

(** The property [df] of an uncertain complex number. *)
Definition UncertainComplex_df (c : Context) (self : UncertainComplex)
    : result (xfloat * UncertainComplex) :=
  '(_, df, self) ← willink_hall c self; Ok (df, self).

(** ** Reflected operations on uncertain reals *)

(** [_radd], [_rsub], [_rmul] and [_rdiv] with a plain real number on the
    left. *)
Definition _radd (lhs : float) (rhs : UncertainReal) : UncertainReal :=
  if Qceqb lhs (qz 0) then rhs
  else
    UncertainReal_init (_context rhs) (lhs + _x rhs)%Qc
      (scale_vector (_u_components rhs) (qz 1))
      (scale_vector (_d_components rhs) (qz 1))
      (scale_vector (_i_components rhs) (qz 1)) None.

Definition _rsub (lhs : float) (rhs : UncertainReal) : UncertainReal :=
  if Qceqb lhs (qz 0) then UncertainReal_neg rhs
  else
    UncertainReal_init (_context rhs) (lhs - _x rhs)%Qc
      (scale_vector (_u_components rhs) (qz (-1)))
      (scale_vector (_d_components rhs) (qz (-1)))
      (scale_vector (_i_components rhs) (qz (-1))) None.

Definition _rmul (lhs : float) (rhs : UncertainReal) : UncertainReal :=
  if Qceqb lhs (qz 1) then rhs
  else
    UncertainReal_init (_context rhs) (lhs * _x rhs)%Qc
      (scale_vector (_u_components rhs) lhs)
      (scale_vector (_d_components rhs) lhs)
      (scale_vector (_i_components rhs) lhs) None.

Definition _rdiv (lhs : float) (rhs : UncertainReal) : result UncertainReal :=
  let r := _x rhs in
  y ← float_div lhs r;
  q ← float_div y r;
  let dy_dr := (- q)%Qc in
  Ok (UncertainReal_init (_context rhs) y
        (scale_vector (_u_components rhs) dy_dr)
        (scale_vector (_d_components rhs) dy_dr)
        (scale_vector (_i_components rhs) dy_dr) None).

(** [get_covariance_real] *)
Definition get_covariance_real (c : Context) (x1 x2 : UncertainReal)
    : result float :=
  if is_elementary x1 && is_elementary x2 then
    n1 ← elementary_leaf x1;
    n2 ← elementary_leaf x2;
    if Leaf_independent (leaf c n1) then
      Ok (Leaf_u (leaf c n1) * Leaf_u (leaf c n2))%Qc
    else
      Ok (Leaf_u (leaf c n1) * correlation_get c n1 n2 * Leaf_u (leaf c n2))%Qc
  else Ok (std_covariance_real c x1 x2).

(** ** Operations on uncertain complex numbers *)

(** [UncertainComplex.constant] *)
Definition UncertainComplex_constant (z : float * float) (l : label)
    : result UncertainComplex :=
  let label_r := label_suffix l "_re" in
  let label_i := label_suffix l "_im" in
  let re := UncertainReal_constant z.1 label_r in
  let im := UncertainReal_constant z.2 label_i in
  ucomplex ← UncertainComplex_init re im;
  Ok (mkUncertainComplex (real ucomplex) (imag ucomplex)
        (_value ucomplex) (_v ucomplex) (Some l) (uc_context ucomplex)
        (uc_is_elementary ucomplex) (uc_is_intermediate ucomplex)).

(** [UncertainComplex.__neg__], [__pos__] and [conjugate] *)
Definition UncertainComplex_neg (self : UncertainComplex)
    : result UncertainComplex :=
  UncertainComplex_init (UncertainReal_neg (real self))
    (UncertainReal_neg (imag self)).

Definition UncertainComplex_pos (self : UncertainComplex)
    : result UncertainComplex :=
  UncertainComplex_init (UncertainReal_pos (real self))
    (UncertainReal_pos (imag self)).

Definition UncertainComplex_conjugate (self : UncertainComplex)
    : result UncertainComplex :=
  UncertainComplex_init (UncertainReal_pos (real self))
    (UncertainReal_neg (imag self)).

(** The other operand of [UncertainComplex.__add__] and its relatives, by
    its class. *)
Inductive complex_operand : Type :=
| OpUncertainComplex (z : UncertainComplex)
| OpUncertainRealC (x : UncertainReal)
| OpRealC (r : float)
| OpComplexC (z : float * float).

(** [UncertainComplex.__add__] *)
Definition UncertainComplex_add (self : UncertainComplex)
    (rhs : complex_operand) : result UncertainComplex :=
  match rhs with
  | OpUncertainComplex rhs =>
      let r := _add (real self) (OpUncertainReal (real rhs)) in
      let i := _add (imag self) (OpUncertainReal (imag rhs)) in
      UncertainComplex_init r i
  | OpUncertainRealC rhs =>
      let r := _add (real self) (OpUncertainReal rhs) in
      let i := UncertainReal_pos (imag self) in
      UncertainComplex_init r i
  | OpRealC rhs =>
      if Qceqb rhs (qz 0) then Ok self
      else
        let r := _add (real self) (OpReal rhs) in
        let i := UncertainReal_pos (imag self) in
        UncertainComplex_init r i
  | OpComplexC rhs =>
      if Qceqb rhs.1 (qz 0) && Qceqb rhs.2 (qz 0) then Ok self
      else
        let r := _add (real self)
                   (OpUncertainReal (UncertainReal_constant rhs.1 None)) in
        let i := _add (imag self)
                   (OpUncertainReal (UncertainReal_constant rhs.2 None)) in
        UncertainComplex_init r i
  end.

(** The left operand of [UncertainComplex.__radd__], by its class. *)
Inductive left_operand : Type :=
| LeftUncertainReal (x : UncertainReal)
| LeftComplex (z : float * float)
| LeftReal (r : float).

(** [UncertainComplex.__radd__]; the branch for a complex number on the left
    builds the two components and ends without a [return] statement: the
    call returns [None]. *)
Definition UncertainComplex_radd (self : UncertainComplex)
    (lhs : left_operand) : result (option UncertainComplex) :=
  match lhs with
  | LeftUncertainReal lhs =>
      let r := _add lhs (OpUncertainReal (real self)) in
      let i := UncertainReal_pos (imag self) in
      z ← UncertainComplex_init r i; Ok (Some z)
  | LeftComplex lhs =>
      if Qceqb lhs.1 (qz 0) && Qceqb lhs.2 (qz 0) then Ok (Some self)
      else
        let r := _add (UncertainReal_constant lhs.1 None)
                   (OpUncertainReal (real self)) in
        let i := _add (UncertainReal_constant lhs.2 None)
                   (OpUncertainReal (imag self)) in
        Ok None
  | LeftReal lhs =>
      if Qceqb lhs (qz 0) then Ok (Some self)
      else
        let r := _radd lhs (real self) in
        let i := UncertainReal_pos (imag self) in
        z ← UncertainComplex_init r i; Ok (Some z)
  end.

(** [UncertainComplex.__sub__] *)
Definition UncertainComplex_sub (self : UncertainComplex)
    (rhs : complex_operand) : result UncertainComplex :=
  match rhs with
  | OpUncertainComplex rhs =>
      let r := _sub (real self) (OpUncertainReal (real rhs)) in
      let i := _sub (imag self) (OpUncertainReal (imag rhs)) in
      UncertainComplex_init r i
  | OpUncertainRealC rhs =>
      let r := _sub (real self) (OpUncertainReal rhs) in
      let i := UncertainReal_pos (imag self) in
      UncertainComplex_init r i
  | OpRealC rhs =>
      if Qceqb rhs (qz 0) then Ok self
      else
        let r := _sub (real self) (OpReal rhs) in
        let i := UncertainReal_pos (imag self) in
        UncertainComplex_init r i
  | OpComplexC rhs =>
      if Qceqb rhs.1 (qz 0) && Qceqb rhs.2 (qz 0) then Ok self
      else
        let r := _sub (real self)
                   (OpUncertainReal (UncertainReal_constant rhs.1 None)) in
        let i := _sub (imag self)
                   (OpUncertainReal (UncertainReal_constant rhs.2 None)) in
        UncertainComplex_init r i
  end.

End Library.

(** * [lib_complex] as the file is written *)

(** [lib_complex.py] uses four names that it never binds: [real] in
    [std_variance_covariance_complex] (line 1860; the module [lib_real] is
    imported under the name [rlib]), [is_infinity] and [Vector] in
    [willink_hall] and its worker class (imported by [lib_real] and
    defined in [vector]), and [_is_uncertain_real_constant] in
    [UncertainComplex.__init__] (a function of [lib_real]).  Evaluating
    such a name raises [NameError].  The definitions of the library above
    read the four names as the objects they are meant to be; the
    definitions of this module follow the file as it stands, up to the
    first unbound name. *)
Module AsWritten.
Section AsWritten.

Context (sqrt : float → float) (debug : bool).

(** [UncertainComplex.__init__]: when the flags [is_elementary] of the
    two components differ, the first assertion goes on to evaluate
    [_is_uncertain_real_constant]. *)
Definition UncertainComplex_init (r i : UncertainReal)
    : result UncertainComplex :=
  _ ← (if debug && negb (eqb (is_elementary i) (is_elementary r))
       then Raise NameError else Ok tt);
  _ ← py_assert debug (eqb (is_intermediate i) (is_intermediate r));
  _ ← py_assert debug (bool_decide (_context i = _context r));
  Ok (mkUncertainComplex r i (_x r, _x i) None None (_context r)
        (is_elementary r || is_elementary i) (is_intermediate r)).

(** [std_variance_covariance_complex]: the two variances are read, then
    the call [real.std_covariance_real(re,im)] raises.  No value is ever
    returned. *)
Definition std_variance_covariance_complex (c : Context)
    (x : UncertainComplex) : result Empty_set :=
  '(_, _) ← UncertainReal_v sqrt c (real x);
  '(_, _) ← UncertainReal_v sqrt c (imag x);
  Raise NameError.

(** A call that never returns, where the caller goes on with its
    value. *)
Definition no_value {A : Type} (m : result Empty_set) : result A :=
  match m with
  | Ok v => match v with end
  | Raise e => Raise e
  end.

(** The property [v]. *)
Definition UncertainComplex_v (c : Context) (self : UncertainComplex)
    : result (VarianceCovariance * UncertainComplex) :=
  match _v self with
  | Some cv => Ok (cv, self)
  | None => no_value (std_variance_covariance_complex c self)
  end.

(** [willink_hall].  A constant is answered at once.  Every other path
    calls [std_variance_covariance_complex] or evaluates [is_infinity] in
    the first pass of one of the two loops: of the loop over the
    independent influences when there is one, else of the loop over the
    dependent influences. *)
Definition willink_hall (c : Context) (x : UncertainComplex)
    : result (VarianceCovariance * xfloat * UncertainComplex) :=
  if _is_uncertain_complex_constant x then
    Ok (mkVarianceCovariance (qz 0) (qz 0) (qz 0) (qz 0), inf, x)
  else if is_elementary (real x) then
    _ ← py_assert debug (is_elementary (imag x));
    no_value (std_variance_covariance_complex c x)
  else
    let re_u := extend_vector (_u_components (real x)) (_u_components (imag x)) in
    let re_d := extend_vector (_d_components (real x)) (_d_components (imag x)) in
    let ids_u := keys re_u in
    let ids_d := keys re_d in
    let degrees_of_freedom_u := map (fun k_i => Leaf_df (leaf c k_i)) ids_u in
    let degrees_of_freedom_d := map (fun k_i => Leaf_df (leaf c k_i)) ids_d in
    if forallb (fun d => xeqb d inf) degrees_of_freedom_u &&
       forallb (fun d => xeqb d inf) degrees_of_freedom_d then
      no_value (std_variance_covariance_complex c x)
    else
      match ids_u, ids_d with
      | _ :: _, _ => Raise NameError
      | [], _ :: _ => Raise NameError
      | [], [] => no_value (std_variance_covariance_complex c x)
      end.

(** The property [df] of an uncertain complex number. *)
Definition UncertainComplex_df (c : Context) (self : UncertainComplex)
    : result (xfloat * UncertainComplex) :=
  '(_, df, self) ← willink_hall c self; Ok (df, self).

End AsWritten.
End AsWritten.

(** * Binary64 arithmetic *)

(** The library above idealises Python's [float] as an exact rational.
    Where rounding decides a claim, the functions the claim is about are
    embedded once more with the kernel's binary64 floats (IEEE 754, round
    to nearest even, as CPython's [float]): the sensitivity vectors with
    [merge_vectors] and [scale_vector], [_add], [std_variance_real] and
    [math.sqrt]. *)
Module Binary64.

Import PrimFloat SpecFloat FloatOps.

Definition Vector := list (uid * float).

Definition keys (v : Vector) : list uid := v.*1.
Definition values (v : Vector) : list float := v.*2.

(** Modelled from the spec: [scale(v,c)] multiplies all coefficients by
    [c]. *)
Definition scale_vector (v : Vector) (c : float) : Vector :=
  map (fun kc => (kc.1, (c * kc.2)%float)) v.

(** Modelled from the spec: [merge(a,b)] has the union of the keys;
    coefficients add where a key appears in both. *)
Fixpoint merge_vectors (a : Vector) (b : Vector) {struct a} : Vector :=
  let fix inner (b : Vector) {struct b} : Vector :=
    match a, b with
    | [], _ => b
    | _, [] => a
    | (ka, va) :: a', (kb, vb) :: b' =>
        if Nat.ltb ka kb then (ka, va) :: merge_vectors a' b
        else if Nat.ltb kb ka then (kb, vb) :: inner b'
        else (ka, (va + vb)%float) :: merge_vectors a' b'
    end
  in inner b.

(** A merge of two vectors without a common key interleaves them: no
    coefficient is changed. *)
Inductive interleave : Vector → Vector → Vector → Prop :=
| interleave_nil_l (b : Vector) : interleave [] b b
| interleave_nil_r (a : Vector) : interleave a [] a
| interleave_l (x : uid * float) (a b m : Vector) :
    interleave a b m → interleave (x :: a) b (x :: m)
| interleave_r (x : uid * float) (a b m : Vector) :
    interleave a b m → interleave a (x :: b) (x :: m).

(** A finite float is an integer multiple of a power of two. *)
Definition exact_value (x : float) : Z * Z :=
  match Prim2SF x with
  | S754_finite s m e => (if s then Z.neg m else Z.pos m, e)
  | _ => (0%Z, 0%Z)
  end.

Definition exact_add (a b : Z * Z) : Z * Z :=
  let e := Z.min a.2 b.2 in
  ((a.1 * 2 ^ (a.2 - e) + b.1 * 2 ^ (b.2 - e))%Z, e).

(** [math.fsum], by its documentation: the exact sum of the values,
    rounded once.  A [nan] among the values gives [nan], infinities of
    one sign give that infinity, infinities of both signs are a
    [ValueError], and a sum of finite values beyond the largest float is
    an [OverflowError]. *)
Definition fsum (l : list float) : result float :=
  if existsb is_nan l then Ok nan
  else if existsb (fun x => is_infinity x && negb (get_sign x)) l then
    if existsb (fun x => is_infinity x && get_sign x) l then Raise ValueError
    else Ok infinity
  else if existsb (fun x => is_infinity x && get_sign x) l then
    Ok neg_infinity
  else
    let s := foldr (fun x acc => exact_add (exact_value x) acc) (0%Z, 0%Z) l in
    let r := SF2Prim (binary_normalize prec emax s.1 s.2 false) in
    if is_infinity r then Raise OverflowError else Ok r.

(** [math.sqrt] *)
Definition math_sqrt (v : float) : result float :=
  if (v <? 0)%float then Raise ValueError else Ok (PrimFloat.sqrt v).

(** The registry, as far as [std_variance_real] reads it: the correlation
    map of every dependent leaf, by uid. *)
Definition Registry := gmap uid (gmap uid float).

(** [k_i.correlation.get(k_j.uid,0.0)] *)
Definition correlation_get (c : Registry) (k_i k_j : uid) : float :=
  default 0%float (c !! k_i ≫= (.!! k_j)).

(** The slots of an uncertain real that hold floats. *)
Record UncertainReal : Type := mkUncertainReal {
  _x : float;
  _u_components : Vector;
  _d_components : Vector;
  _i_components : Vector
}.

(** The number that [elementary(x,u,df,label,independent)] returns for
    the new leaf [k]. *)
Definition elementary_on (k : uid) (x u : float) (independent : bool)
    : UncertainReal :=
  if independent then mkUncertainReal x [(k, u)] [] []
  else mkUncertainReal x [] [(k, u)] [].

Inductive operand : Type :=
| OpUncertainReal (x : UncertainReal)
| OpReal (r : float).

Definition _add (lhs : UncertainReal) (rhs : operand) : UncertainReal :=
  match rhs with
  | OpUncertainReal rhs =>
      mkUncertainReal (_x lhs + _x rhs)%float
        (merge_vectors (_u_components lhs) (_u_components rhs))
        (merge_vectors (_d_components lhs) (_d_components rhs))
        (merge_vectors (_i_components lhs) (_i_components rhs))
  | OpReal rhs =>
      if (rhs =? 0)%float then lhs
      else
        mkUncertainReal (_x lhs + rhs)%float
          (scale_vector (_u_components lhs) 1%float)
          (scale_vector (_d_components lhs) 1%float)
          (scale_vector (_i_components lhs) 1%float)
  end.

(** [std_variance_real]: the loop over the dependent components, with the
    running value of [var]. *)
Fixpoint std_variance_real_d (c : Registry) (var : float) (cpts : Vector)
    : result float :=
  match cpts with
  | [] => Ok var
  | (k_i, u_i) :: rest =>
      let var := (var + u_i * u_i)%float in
      s ← fsum (map (fun kj : uid * float =>
                  (2 * u_i * correlation_get c k_i kj.1 * kj.2)%float) rest);
      std_variance_real_d c (var + s)%float rest
  end.

Definition std_variance_real (c : Registry) (x : UncertainReal)
    : result float :=
  let var := 0%float in
  var ← (if bool_decide (length (_u_components x) ≠ 0) then
           s ← fsum (map (fun u_i => (u_i * u_i)%float)
                       (values (_u_components x)));
           Ok (var + s)%float
         else Ok var);
  if bool_decide (length (_d_components x) ≠ 0) then
    std_variance_real_d c var (_d_components x)
  else Ok var.


(** The numbers [x1 = elementary(1, 1, 5)] on the leaf 1 and
    [x2 + x3] with [x2 = x3 = elementary(1, 1.5*2**-27, 5)] on the leaves
    2 and 3. *)
Definition x1 : UncertainReal := elementary_on 1 1%float 1%float false.

End Binary64.

(** * Definitions on the side of the specification *)

(** ** Quantities the claims speak of *)

(** The sign of a number, as the claim uses it. *)
Definition sign (x : float) : float :=
  if Qcltb (qz 0) x then qz 1 else if Qcltb x (qz 0) then qz (-1) else qz 0.

(** The sum of the squared independent components. *)
Definition usum (v : Vector) : float :=
  fsum (map (fun u_i => (u_i * u_i)%Qc) (values v)).

(** The cross terms of the component [(k_i,u_i)] with the components that
    follow it. *)
Definition cross (c : Context) (k_i : uid) (u_i : float) (rest : Vector)
    : float :=
  fsum (map (fun kj : uid * float =>
               (qz 2 * u_i * correlation_get c k_i kj.1 * kj.2)%Qc) rest).

(** The contribution of the dependent components:
    [Σ u_i² + Σ_{i<j} 2·u_i·r_ij·u_j]. *)
Fixpoint dvar (c : Context) (v : Vector) : float :=
  match v with
  | [] => qz 0
  | (k_i, u_i) :: rest => (u_i * u_i + cross c k_i u_i rest + dvar c rest)%Qc
  end.

(** A merge of two vectors without a common key interleaves them. *)
Inductive interleave : Vector → Vector → Vector → Prop :=
| interleave_nil_l (b : Vector) : interleave [] b b
| interleave_nil_r (a : Vector) : interleave a [] a
| interleave_l (x : uid * float) (a b m : Vector) :
    interleave a b m → interleave (x :: a) b (x :: m)
| interleave_r (x : uid * float) (a b m : Vector) :
    interleave a b m → interleave a (x :: b) (x :: m).

(** The correlation that the dof engine rejects: a registered coefficient
    between two dependent influences that do not both have infinite
    degrees of freedom. *)
Definition illegal_pair (c : Context) (k_i k_j : uid) : bool :=
  bool_decide (is_Some (Leaf_correlation (leaf c k_i) !! k_j)) &&
  negb (is_infinity (Leaf_df (leaf c k_i)) &&
        is_infinity (Leaf_df (leaf c k_j))).

Fixpoint has_illegal_pair (c : Context) (v : Vector) : bool :=
  match v with
  | [] => false
  | (k_i, _) :: rest =>
      existsb (fun kj : uid * float => illegal_pair c k_i kj.1) rest ||
      has_illegal_pair c rest
  end.

(** Dependent influences that belong to no ensemble and to no complex
    pair. *)
Definition plain_influences (c : Context) (v : Vector) : Prop :=
  ∀ k, k ∈ keys v →
    Leaf_ensemble (leaf c k) = ∅ ∧ Leaf_complex (leaf c k) = None.

(** ** Decidable equality of the values of the embedding *)

Global Instance xfloat_eq_dec : EqDecision xfloat.
Proof. solve_decision. Defined.
Global Instance exn_eq_dec : EqDecision exn.
Proof. solve_decision. Defined.
Global Instance result_eq_dec {A} `{EqDecision A} : EqDecision (result A).
Proof. solve_decision. Defined.
Global Instance Leaf_eq_dec : EqDecision Leaf.
Proof. solve_decision. Defined.
Global Instance Node_eq_dec : EqDecision Node.
Proof. solve_decision. Defined.
Global Instance Context_eq_dec : EqDecision Context.
Proof. solve_decision. Defined.
Global Instance node_obj_eq_dec : EqDecision node_obj.
Proof. solve_decision. Defined.
Global Instance UncertainReal_eq_dec : EqDecision UncertainReal.
Proof. solve_decision. Defined.
Global Instance VarianceCovariance_eq_dec : EqDecision VarianceCovariance.
Proof. solve_decision. Defined.
Global Instance UncertainComplex_eq_dec : EqDecision UncertainComplex.
Proof. solve_decision. Defined.

(** ** Concrete registries and numbers *)

(** The empty registry. *)
Definition empty_context : Context := mkContext 0 0 ∅ ∅.

(** A total stand-in for [math.sqrt] where a concrete function is needed:
    the integer square root of the integer part. *)
Definition sqrt_floor (q : float) : float := qz (Z.sqrt (Qfloor q)).

(** The scenario of the illegal correlation: [x1], [x2], [x3] elementary,
    dependent, with 5 degrees of freedom and not an ensemble; a direct
    correlation between [x1] and [x3]; [x4 = x1 + x2], [x5 = x2 + x3] and
    the result [x4 + x5]. *)
Definition illegal_correlation_scenario : result (Context * UncertainReal) :=
  '(c, x1) ← UncertainReal_elementary empty_context (qz 1) (qz 1)
                (Fin (qz 5)) None false;
  '(c, x2) ← UncertainReal_elementary c (qz 1) (qz 1) (Fin (qz 5)) None false;
  '(c, x3) ← UncertainReal_elementary c (qz 1) (qz 1) (Fin (qz 5)) None false;
  c ← set_correlation_real sqrt_floor true c x1 x3 (qfrac 1 2);
  let x4 := _add x1 (OpUncertainReal x2) in
  let x5 := _add x2 (OpUncertainReal x3) in
  Ok (c, _add x4 (OpUncertainReal x5)).

Definition illegal_correlation_state : Context * UncertainReal :=
  match illegal_correlation_scenario with
  | Ok s => s
  | Raise _ => (empty_context, UncertainReal_constant (qz 0) None)
  end.

(** An uncertain complex number [(x1 + x2) + j(x1 - x2)] over two
    elementary, dependent reals with 5 degrees of freedom that are
    correlated with each other and form neither an ensemble nor a complex
    pair. *)
Definition illegal_correlation_complex (debug : bool)
    : result (Context * UncertainComplex) :=
  '(c, x1) ← UncertainReal_elementary empty_context (qz 1) (qz 1)
                (Fin (qz 5)) None false;
  '(c, x2) ← UncertainReal_elementary c (qz 1) (qz 1) (Fin (qz 5)) None false;
  c ← set_correlation_real sqrt_floor debug c x1 x2 (qfrac 1 2);
  z ← UncertainComplex_init debug (_add x1 (OpUncertainReal x2))
         (_sub x1 (OpUncertainReal x2));
  Ok (c, z).

(** The sum of two elementary, dependent uncertain complex numbers with 5
    degrees of freedom, the real components of which are correlated with
    each other. *)
Definition illegal_correlation_pairs (debug : bool)
    : result (Context * UncertainComplex) :=
  '(c, z1) ← UncertainComplex_elementary debug empty_context (qz 1, qz 1)
                (qz 1) (qz 1) None (Fin (qz 5)) None false;
  '(c, z2) ← UncertainComplex_elementary debug c (qz 1, qz 1)
                (qz 1) (qz 1) None (Fin (qz 5)) None false;
  c ← set_correlation_real sqrt_floor debug c (real z1) (real z2) (qfrac 1 2);
  z ← UncertainComplex_init debug
         (_add (real z1) (OpUncertainReal (real z2)))
         (_add (imag z1) (OpUncertainReal (imag z2)));
  Ok (c, z).

(** Two dependent leaves without correlation, and a number on each. *)
Definition two_leaves : Context :=
  mkContext 2 0
    (<[0 := mkLeaf None (qz 1) (Fin (qz 5)) false {[0 := qz 1]} ∅ None]>
       (<[1 := mkLeaf None (qz 2) (Fin (qz 7)) false {[1 := qz 1]} ∅ None]>
          ∅)) ∅.
Definition on_leaf_0 : UncertainReal :=
  UncertainReal_init None (qz 1) [] [(0, qz 1)] [] (Some (LeafRef 0)).
Definition on_leaf_1 : UncertainReal :=
  UncertainReal_init None (qz 2) [] [(1, qz 2)] [] (Some (LeafRef 1)).

(** The sum of the two numbers, a derived uncertain real, and its first
    registration as an intermediate result. *)
Definition derived_sum : UncertainReal :=
  _add on_leaf_0 (OpUncertainReal on_leaf_1).
Definition registered_once : Context * UncertainReal :=
  match UncertainReal_intermediate sqrt_floor two_leaves derived_sum None with
  | Ok s => s
  | Raise _ => (two_leaves, derived_sum)
  end.

(** An uncertain complex number whose components share the two leaves. *)
Definition shared_complex : UncertainComplex :=
  mkUncertainComplex derived_sum
    (_sub on_leaf_0 (OpUncertainReal on_leaf_1))
    (qz 3, qz (-1)) None None None false false.

(** The two leaves after [set_correlation_real(x0,x1,0.5)]. *)
Definition correlated_leaves : Context :=
  match set_correlation_real sqrt_floor true two_leaves on_leaf_0 on_leaf_1
          (qfrac 1 2) with
  | Ok c => c
  | Raise _ => two_leaves
  end.

(** Two independent elementary numbers, made one after the other. *)
Definition independent_first : Context * UncertainReal :=
  match UncertainReal_elementary empty_context (qz 1) (qz 1) (Fin (qz 5))
          None true with
  | Ok s => s
  | Raise _ => (empty_context, UncertainReal_constant (qz 0) None)
  end.
Definition independent_second : Context * UncertainReal :=
  match UncertainReal_elementary independent_first.1 (qz 2) (qz 2)
          (Fin (qz 7)) None true with
  | Ok s => s
  | Raise _ => (empty_context, UncertainReal_constant (qz 0) None)
  end.

(** Two correlated leaves with infinite degrees of freedom. *)
Definition infinite_leaves : Context :=
  mkContext 2 0
    (<[0 := mkLeaf None (qz 1) inf false
              (<[1 := qfrac 1 2]> {[0 := qz 1]}) ∅ None]>
       (<[1 := mkLeaf None (qz 2) inf false
                 (<[0 := qfrac 1 2]> {[1 := qz 1]}) ∅ None]> ∅)) ∅.

(** An elementary uncertain complex number [1+2j] with uncertainties 1 and
    2, the correlation coefficient 0.5 and 5 degrees of freedom. *)
Definition complex_pair_state : Context * UncertainComplex :=
  match UncertainComplex_elementary true empty_context (qz 1, qz 2) (qz 1)
          (qz 2) (Some (qfrac 1 2)) (Fin (qz 5)) None false with
  | Ok s => s
  | Raise _ => (empty_context, shared_complex)
  end.

(** * Properties *)

(** ** Basic facts about the numbers *)

Lemma Qceqb_eq (a b : float) : Qceqb a b = true ↔ a = b.
Proof.
  unfold Qceqb. rewrite Qceq_alt.
  destruct (a ?= b)%Qc; split; congruence.
Qed.

Lemma Qceqb_neq (a b : float) : Qceqb a b = false ↔ a ≠ b.
Proof.
  rewrite <- Qceqb_eq. destruct (Qceqb a b); split; congruence.
Qed.

Lemma Qcltb_lt (a b : float) : Qcltb a b = true ↔ (a < b)%Qc.
Proof.
  unfold Qcltb, Qclt. rewrite Qlt_alt. unfold Qccompare.
  destruct (a ?= b)%Q; split; congruence.
Qed.

Lemma Qcltb_ge (a b : float) : Qcltb a b = false ↔ (b <= a)%Qc.
Proof.
  unfold Qcltb, Qcle. rewrite Qle_alt. unfold Qccompare.
  rewrite <- (Qcompare_antisym a b).
  destruct (a ?= b)%Q; simpl; split; congruence.
Qed.

Lemma float_abs_Qcabs (x : float) : float_abs x = Qcabs x.
Proof.
  unfold float_abs. destruct (Qcltb x (qz 0)) eqn:E.
  - apply Qcltb_lt in E. symmetry. apply Qcabs_neg. by apply Qclt_le_weak.
  - apply Qcltb_ge in E. symmetry. by apply Qcabs_pos.
Qed.

(** [xle (Fin 1) df] excludes [xlt df (Fin 1)]: a number of degrees of
    freedom that is at least one is not below one. *)
Lemma xle_not_xlt (a b : xfloat) : xle a b = true → xlt b a = false.
Proof.
  unfold xle. destruct a as [p| | |], b as [q| | |]; simpl; try done.
  unfold Qcltb, Qceqb, Qccompare. rewrite <- (Qcompare_antisym p q).
  destruct (p ?= q)%Q; simpl; done.
Qed.

Arguments qz : simpl never.
Arguments leaf : simpl never.
Arguments new_leaf : simpl never.
Arguments _next_elementary_id : simpl never.
Arguments _next_intermediate_id : simpl never.

Section Properties.

Context (sqrt : float → float) (debug : bool).

(** ** Elementary uncertain numbers *)

Lemma elementary_ok (c : Context) (x u : float) (df : xfloat) (l : label)
    (independent : bool) :
  xlt df (Fin (qz 1)) = false → Qcltb u (qz 0) = false →
  UncertainReal_elementary c x u df l independent =
    let k := S (_elementary_id_counter c) in
    let c' := (new_leaf (_next_elementary_id c).2 k l u df independent).2 in
    Ok (c', UncertainReal_init None x
              (if independent then [(k, u)] else [])
              (if independent then [] else [(k, u)]) [] (Some (LeafRef k))).
Proof.
  intros Hdf Hu. unfold UncertainReal_elementary. rewrite Hdf, Hu. simpl.
  by destruct independent.
Qed.

Lemma leaf_insert_eq (c : Context) (m : gmap uid Leaf) (k : uid) (lf : Leaf) :
  leaf (set_leaf_nodes c (<[k := lf]> m)) k = lf.
Proof. unfold leaf. simpl. by rewrite lookup_insert_eq. Qed.

Lemma leaf_insert_ne (c : Context) (m : gmap uid Leaf) (k k' : uid)
    (lf : Leaf) :
  k ≠ k' →
  leaf (set_leaf_nodes c (<[k := lf]> m)) k' = leaf (set_leaf_nodes c m) k'.
Proof. intros H. unfold leaf. simpl. by rewrite lookup_insert_ne. Qed.

(** C2: for every value [v], every uncertainty [u >= 0] and every number
    of degrees of freedom [df >= 1], the elementary uncertain real
    [elementary(v,u,df)] is constructed and its properties read
    [.x == v], [.u == u], [.df == df] and [.v == u*u]. *)
Theorem elementary_properties (c : Context) (v u : float) (df : xfloat)
    (l : label) (independent : bool) :
  (qz 0 <= u)%Qc → xle (Fin (qz 1)) df = true →
  ∃ c' un,
    UncertainReal_elementary c v u df l independent = Ok (c', un) ∧
    UncertainReal_x un = v ∧
    UncertainReal_u sqrt c' un = Ok (u, set__u un u) ∧
    UncertainReal_df sqrt debug c' un = Ok (df, un) ∧
    UncertainReal_v sqrt c' un = Ok ((u * u)%Qc, set__u un u).
Proof.
  intros Hu Hdf. apply Qcltb_ge in Hu. apply xle_not_xlt in Hdf.
  rewrite (elementary_ok _ _ _ _ _ _ Hdf Hu). cbv zeta.
  eexists _, _. split; [reflexivity|].
  unfold UncertainReal_x, UncertainReal_u, UncertainReal_v, UncertainReal_df.
  simpl. rewrite leaf_insert_eq. done.
Qed.

(** C7: constructing an elementary uncertain real raises the error exactly
    when [df < 1] or [u < 0]; for [df >= 1] and [u >= 0] the construction
    succeeds. *)
Theorem elementary_raises_iff (c : Context) (x u : float) (df : xfloat)
    (l : label) (independent : bool) :
  ((∃ e, UncertainReal_elementary c x u df l independent = Raise e) ↔
     (xlt df (Fin (qz 1)) = true ∨ (u < qz 0)%Qc)) ∧
  ((xlt df (Fin (qz 1)) = true ∨ (u < qz 0)%Qc) →
     UncertainReal_elementary c x u df l independent = Raise RuntimeError) ∧
  ((xle (Fin (qz 1)) df = true ∧ (qz 0 <= u)%Qc) →
     ∃ r, UncertainReal_elementary c x u df l independent = Ok r).
Proof.
  assert (Hraise : (xlt df (Fin (qz 1)) = true ∨ (u < qz 0)%Qc) →
     UncertainReal_elementary c x u df l independent = Raise RuntimeError).
  { intros H. unfold UncertainReal_elementary.
    destruct (xlt df (Fin (qz 1))); [done|].
    destruct H as [H|H]; [done|]. apply Qcltb_lt in H. by rewrite H. }
  split; [|split]; [|done|].
  - split; [|eauto].
    intros [e He]. destruct (xlt df (Fin (qz 1))) eqn:Hdf; [by left|].
    right. apply Qcltb_lt. destruct (Qcltb u (qz 0)) eqn:Hu; [done|].
    rewrite (elementary_ok _ _ _ _ _ _ Hdf Hu) in He. done.
  - intros [Hdf Hu]. apply xle_not_xlt in Hdf. apply Qcltb_ge in Hu.
    rewrite (elementary_ok _ _ _ _ _ _ Hdf Hu). eauto.
Qed.

(** ** Magnitude *)

Lemma copysign1_sign (x : float) : x ≠ qz 0 → copysign1 x = sign x.
Proof.
  intros Hx. unfold copysign1, sign.
  destruct (Qcltb x (qz 0)) eqn:Hneg.
  - apply Qcltb_lt in Hneg.
    destruct (Qcltb (qz 0) x) eqn:Hpos; [|done].
    apply Qcltb_lt in Hpos. destruct (Qclt_not_le _ _ Hneg).
    by apply Qclt_le_weak.
  - apply Qcltb_ge in Hneg.
    destruct (Qcltb (qz 0) x) eqn:Hpos; [done|].
    apply Qcltb_ge in Hpos. destruct Hx. by apply Qcle_antisym.
Qed.

(** C8: the magnitude of an uncertain real whose value is exactly 0 raises
    the fatal error (the derivative is undefined there); for every other
    value it succeeds and returns [|x|], the components of uncertainty
    being multiplied by the sensitivity coefficient [sign(x)]. *)
Theorem magnitude_zero_raises (self : UncertainReal) :
  (_x self = qz 0 →
     UncertainReal_magnitude self = Raise ZeroDivisionError) ∧
  (_x self ≠ qz 0 →
     UncertainReal_magnitude self =
       Ok (UncertainReal_init (_context self) (Qcabs (_x self))
             (scale_vector (_u_components self) (sign (_x self)))
             (scale_vector (_d_components self) (sign (_x self)))
             (scale_vector (_i_components self) (sign (_x self))) None)).
Proof.
  unfold UncertainReal_magnitude. split; intros Hx.
  - rewrite Hx. done.
  - apply Qceqb_neq in Hx as Hx'. rewrite Hx'.
    by rewrite copysign1_sign, float_abs_Qcabs.
Qed.

(** ** Powers *)

Context (float_pow : float → float → result float)
        (math_log : float → result float)
        (math_atan2 : float → float → float).

(** C10: raising an uncertain real to the plain exponent 0 returns the
    plain number 1.0, raising it to the plain exponent 1 returns the
    operand itself; every other plain exponent [r] produces a new uncertain
    real with value [x**r] whose components are those of the operand
    scaled by [r * x**(r-1)]. *)
Theorem pow_plain_exponent (x : UncertainReal) :
  UncertainReal_pow float_pow math_log x (OpReal (qz 0)) = Ok (PyFloat (qz 1)) ∧
  UncertainReal_pow float_pow math_log x (OpReal (qz 1)) =
    Ok (PyUncertainReal x) ∧
  ∀ r : float, r ≠ qz 0 → r ≠ qz 1 →
    UncertainReal_pow float_pow math_log x (OpReal r) =
      (y ← float_pow (_x x) r;
       p ← float_pow (_x x) (r - qz 1)%Qc;
       Ok (PyUncertainReal
             (UncertainReal_init (_context x) y
                (scale_vector (_u_components x) (r * p)%Qc)
                (scale_vector (_d_components x) (r * p)%Qc)
                (scale_vector (_i_components x) (r * p)%Qc) None))).
Proof.
  unfold UncertainReal_pow, _pow. split; [done|]. split; [done|].
  intros r H0 H1. apply Qceqb_neq in H0, H1. by rewrite H0, H1.
Qed.

(** ** Intermediate registration *)

(** What a new registration does to a derived number. *)
Lemma intermediate_new (c : Context) (un : UncertainReal) (l : label)
    (c1 : Context) (un1 : UncertainReal) :
  is_elementary un = false → is_intermediate un = false →
  UncertainReal_intermediate sqrt c un l = Ok (c1, un1) →
  ∃ u : float,
    UncertainReal_u sqrt (_next_intermediate_id c).2 un = Ok (u, set__u un u) ∧
    _node un1 = Some (NodeObj (mkNode (_intermediate_id_counter c) l u)) ∧
    _i_components un1 =
      merge_vectors (_i_components un) [(_intermediate_id_counter c, u)] ∧
    is_intermediate un1 = true ∧
    _intermediate_id_counter c1 = S (_intermediate_id_counter c) ∧
    _registered_intermediate_nodes c1 =
      <[_intermediate_id_counter c := mkNode (_intermediate_id_counter c) l u]>
        (_registered_intermediate_nodes c).
Proof.
  intros He Hi. unfold UncertainReal_intermediate. rewrite He, Hi. simpl.
  unfold UncertainReal_u. rewrite He, Hi. simpl.
  destruct (_u un) as [u|] eqn:Hu; simpl.
  - intros [= <- <-]. exists u. simpl. repeat split; try done.
    f_equal. f_equal. destruct un; unfold set__u; simpl in *; by subst.
  - destruct (math_sqrt sqrt _) as [u|e] eqn:Hs; simpl; [|done].
    intros [= <- <-]. exists u. simpl. by repeat split.
Qed.

(** C9: registering the same derived uncertain real as intermediate a
    second time is idempotent: the first registration adds the self-entry
    to the intermediate components and allocates one intermediate id; the
    second one adds no entry and allocates no id, the state after two
    registrations being the state after one. *)
Theorem intermediate_idempotent (c : Context) (un : UncertainReal)
    (l l' : label) (c1 : Context) (un1 : UncertainReal) :
  is_elementary un = false → is_intermediate un = false →
  UncertainReal_intermediate sqrt c un l = Ok (c1, un1) →
  (∃ u : float,
     _i_components un1 =
       merge_vectors (_i_components un) [(_intermediate_id_counter c, u)] ∧
     _intermediate_id_counter c1 = S (_intermediate_id_counter c)) ∧
  UncertainReal_intermediate sqrt c1 un1 l' = Ok (c1, un1).
Proof.
  intros He Hi H.
  destruct (intermediate_new _ _ _ _ _ He Hi H)
    as (u & _ & _ & Hv & Hi1 & Hc & _).
  split; [eauto|].
  unfold UncertainReal_intermediate. rewrite Hi1.
  by destruct (is_elementary un1).
Qed.

(** ** Correlation *)

Lemma leaf_set_leaf_correlation (c : Context) (ln k : uid) (r : float)
    (k' : uid) :
  leaf (set_leaf_correlation c ln k r) k' =
    if bool_decide (ln = k') then
      mkLeaf (Leaf_label (leaf c ln)) (Leaf_u (leaf c ln))
        (Leaf_df (leaf c ln)) (Leaf_independent (leaf c ln))
        (<[k := r]> (Leaf_correlation (leaf c ln)))
        (Leaf_ensemble (leaf c ln)) (Leaf_complex (leaf c ln))
    else leaf c k'.
Proof.
  unfold set_leaf_correlation. case_bool_decide as H.
  - subst. by rewrite leaf_insert_eq.
  - by rewrite leaf_insert_ne.
Qed.

(** C6: for two distinct elementary, dependent uncertain reals [x1] and
    [x2] and any coefficient [r], [set_correlation(x1,x2,r)] succeeds and
    writes [r] into the correlation maps of both leaves; afterwards
    [get_correlation(x1,x2)] and [get_correlation(x2,x1)] both return
    [r]. *)
Theorem correlation_round_trip (c : Context) (x1 x2 : UncertainReal)
    (k1 k2 : uid) (r : float) :
  is_elementary x1 = true → _node x1 = Some (LeafRef k1) →
  is_elementary x2 = true → _node x2 = Some (LeafRef k2) →
  k1 ≠ k2 →
  Leaf_independent (leaf c k1) = false →
  Leaf_independent (leaf c k2) = false →
  ∃ c',
    set_correlation_real sqrt debug c x1 x2 r = Ok c' ∧
    Leaf_correlation (leaf c' k1) !! k2 = Some r ∧
    Leaf_correlation (leaf c' k2) !! k1 = Some r ∧
    get_correlation_real sqrt c' x1 x2 = Ok r ∧
    get_correlation_real sqrt c' x2 x1 = Ok r.
Proof.
  intros He1 Hn1 He2 Hn2 Hne Hi1 Hi2.
  eexists. unfold set_correlation_real, get_correlation_real, elementary_leaf,
    leaf_correlation.
  rewrite He1, He2, Hn1, Hn2. simpl. rewrite Hi1, Hi2. simpl.
  rewrite (bool_decide_eq_false_2 (k1 = k2)) by done.
  rewrite (bool_decide_eq_false_2 (k2 = k1)) by done.
  simpl. split; [reflexivity|].
  rewrite !leaf_set_leaf_correlation.
  rewrite (bool_decide_eq_true_2 (k2 = k2)) by done.
  rewrite (bool_decide_eq_false_2 (k2 = k1)) by done.
  rewrite (bool_decide_eq_true_2 (k1 = k1)) by done.
  rewrite (bool_decide_eq_false_2 (k1 = k2)) by done.
  simpl. rewrite Hi1, Hi2. simpl. rewrite !lookup_insert_eq. done.
Qed.

(** ** Contexts of the operands of a binary operation *)

(** C5, as the code has it: of the binary operations on two uncertain
    reals only [atan2] compares the contexts of its operands, by an
    assertion; addition, subtraction and multiplication always return a
    result, division and exponentiation do so whenever their arithmetic
    is defined, and the result carries the context of the left operand,
    whatever the context of the right one. *)
Theorem binary_operations_keep_left_context (a b : UncertainReal) :
  _context (_add a (OpUncertainReal b)) = _context a ∧
  _context (_sub a (OpUncertainReal b)) = _context a ∧
  _context (_mul a (OpUncertainReal b)) = _context a ∧
  (_x b ≠ qz 0 →
     ∃ y, _div a (OpUncertainReal b) = Ok y ∧ _context y = _context a) ∧
  (∀ y p g, float_pow (_x a) (_x b) = Ok y →
     float_pow (_x a) (_x b - qz 1)%Qc = Ok p →
     math_log (float_abs (_x a)) = Ok g →
     ∃ z, _pow float_pow math_log a (OpUncertainReal b) =
            Ok (PyUncertainReal z) ∧ _context z = _context a) ∧
  (_context a ≠ _context b →
     _atan2_re_re true math_atan2 a b = Raise AssertionError) ∧
  (∃ y, _atan2_re_re false math_atan2 a b = Ok y ∧ _context y = _context a).
Proof.
  repeat split; try done.
  - intros Hb. apply Qceqb_neq in Hb. unfold _div, float_div.
    rewrite Hb. simpl. eauto.
  - intros y p g Hy Hp Hg. unfold _pow. rewrite Hy, Hp. simpl.
    destruct (Qceqb (_x a) (qz 0)); simpl; [eauto|]. rewrite Hg. simpl. eauto.
  - intros Hne. unfold _atan2_re_re, py_assert.
    by rewrite (bool_decide_eq_false_2 _ Hne).
  - unfold _atan2_re_re, py_assert, float_div. simpl.
    destruct (Qceqb _ (qz 0)); simpl; eauto.
Qed.

(** ** Additivity of the variance *)

Lemma qz_0 : qz 0 = 0%Qc.
Proof. by apply Qc_is_canon. Qed.
Lemma qz_1 : qz 1 = 1%Qc.
Proof. by apply Qc_is_canon. Qed.

Lemma std_variance_real_d_acc (c : Context) (v : Vector) (var : float) :
  std_variance_real_d c var v = (var + dvar c v)%Qc.
Proof.
  revert var. induction v as [|[k u] v IH]; intros var; simpl.
  - rewrite qz_0. ring.
  - rewrite IH. unfold cross. ring.
Qed.

Lemma std_variance_real_closed (c : Context) (x : UncertainReal) :
  std_variance_real c x =
    (usum (_u_components x) + dvar c (_d_components x))%Qc.
Proof.
  unfold std_variance_real, usum.
  destruct (_u_components x) as [|e u]; destruct (_d_components x) as [|f d];
    simpl bool_decide; cbv iota.
  - simpl. rewrite qz_0. ring.
  - rewrite std_variance_real_d_acc. simpl. rewrite qz_0. ring.
  - simpl. rewrite qz_0. ring.
  - rewrite std_variance_real_d_acc. simpl. rewrite qz_0. ring.
Qed.







(** The variance of an elementary number made by [elementary(x,u,df)] is
    [u*u], whether the leaf is independent or not. *)
Lemma std_variance_real_leaf (c : Context) (x u : float) (k : uid)
    (independent : bool) :
  std_variance_real c
    (UncertainReal_init None x (if independent then [(k, u)] else [])
       (if independent then [] else [(k, u)]) [] (Some (LeafRef k))) =
  (u * u)%Qc.
Proof.
  rewrite std_variance_real_closed.
  destruct independent; simpl; unfold usum, cross; simpl; rewrite ?qz_0; ring.
Qed.




(** ** Sums in the covariance *)

Lemma foldl_fsum_acc (f : uid * float → float) (v : Vector) (cv : float) :
  foldl (fun cv k1 => (cv + f k1)%Qc) cv v = (cv + fsum (map f v))%Qc.
Proof.
  revert cv. induction v as [|x v IH]; intros cv; simpl.
  - rewrite qz_0. ring.
  - rewrite IH. ring.
Qed.

(** ** Welch-Satterthwaite with an illegal correlation *)

Lemma cross_cons (c : Context) (k_i : uid) (u_i : float) (k_j : uid)
    (u_j : float) (rest : Vector) :
  cross c k_i u_i ((k_j, u_j) :: rest) =
    (qz 2 * u_i * correlation_get c k_i k_j * u_j + cross c k_i u_i rest)%Qc.
Proof. done. Qed.

Lemma ws_inner_plain (dbg : bool) (c : Context) (k_i : uid) (u_i : float)
    (rest : Vector) (st : ws_state) :
  let bad := existsb (fun kj : uid * float => illegal_pair c k_i kj.1) rest in
  ws_inner dbg c k_i u_i (is_infinity (Leaf_df (leaf c k_i))) ∅ None rest st =
    if dbg && bad then Raise AssertionError
    else Ok (mkWS (ws_var st + cross c k_i u_i rest)%Qc (ws_cpts_lst st)
               (ws_dof_lst st) (ws_cpts_map st) (ws_finish_complex st)
               (if bad then nan else ws_df st)).
Proof.
  revert st. induction rest as [|[k_j u_j] rest IH]; intros st.
  - cbn. rewrite andb_false_r. unfold cross. cbn. rewrite qz_0, Qcplus_0_r.
    by destruct st.
  - cbn [ws_inner existsb fst]. cbv zeta in IH. rewrite cross_cons.
    unfold illegal_pair at 1 2 3, correlation_get.
    destruct (Leaf_correlation (leaf c k_i) !! k_j) as [r|] eqn:Hr.
    + rewrite (bool_decide_eq_true_2 (is_Some (Some r))) by eauto.
      cbn [andb default].
      destruct (is_infinity (Leaf_df (leaf c k_i)) &&
                is_infinity (Leaf_df (leaf c k_j))) eqn:Hinf.
      * rewrite IH. cbn [negb orb ws_var ws_cpts_lst ws_dof_lst ws_cpts_map
                         ws_finish_complex ws_df].
        destruct (dbg && _); [done|]. do 2 f_equal. unfold id. ring.
      * rewrite (bool_decide_eq_false_2 (k_j ∈ (∅ : gset uid)))
          by apply not_elem_of_empty.
        rewrite (bool_decide_eq_false_2 (None = Some (k_i, k_j))) by done.
        cbn [negb orb]. rewrite andb_true_r. unfold py_assert.
        destruct dbg; cbn; [done|].
        rewrite IH. cbn. rewrite Tauto.if_same. do 2 f_equal. unfold id. ring.
    + rewrite (bool_decide_eq_false_2 (is_Some None))
        by (intros [? ?]; done).
      cbn [andb orb default]. rewrite IH.
      destruct (dbg && _); [done|]. do 2 f_equal. unfold id. rewrite qz_0. ring.
Qed.

Lemma ws_outer_cons (dbg : bool) (c : Context) (k_i : uid) (u_i : float)
    (k_next : uid) (u_next : float) (rest : Vector) (st : ws_state) :
  ws_outer dbg c ((k_i, u_i) :: (k_next, u_next) :: rest) st =
    (let v_i := (u_i * u_i)%Qc in
     let df_i := Leaf_df (leaf c k_i) in
     let ensemble_i := Leaf_ensemble (leaf c k_i) in
     let st := mkWS (ws_var st + v_i)%Qc (ws_cpts_lst st) (ws_dof_lst st)
                 (ws_cpts_map st) (ws_finish_complex st) (ws_df st) in
     let complex_id := Leaf_complex (leaf c k_i) in
     let st :=
       if bool_decide (size ensemble_i ≠ 0) &&
          negb (cpts_map_mem ensemble_i (ws_cpts_map st))
       then mkWS (ws_var st) (ws_cpts_lst st) (ws_dof_lst st)
              (ws_cpts_map st ++ [(ensemble_i, (qz 0, df_i))])
              (ws_finish_complex st) (ws_df st)
       else st in
     st ← ws_component ensemble_i v_i df_i st;
     let st := mkWS (ws_var st) (ws_cpts_lst st) (ws_dof_lst st)
                 (ws_cpts_map st)
                 (bool_decide (complex_id = Some (k_i, k_next)))
                 (ws_df st) in
     st ← ws_inner dbg c k_i u_i (is_infinity df_i) ensemble_i complex_id
            ((k_next, u_next) :: rest) st;
     ws_outer dbg c ((k_next, u_next) :: rest) st).
Proof. done. Qed.

Lemma ws_outer_plain (dbg : bool) (c : Context) (cpts : Vector)
    (st : ws_state) :
  plain_influences c cpts →
  ws_cpts_map st = [] → ws_finish_complex st = false →
  if dbg && has_illegal_pair c cpts then
    ws_outer dbg c cpts st = Raise AssertionError
  else
    ∃ l1 l2,
      ws_outer dbg c cpts st =
        Ok (mkWS (ws_var st + dvar c cpts)%Qc l1 l2 [] false
              (if has_illegal_pair c cpts then nan else ws_df st)).
Proof.
  revert st. induction cpts as [|[k_i u_i] rest IH]; intros st Hplain Hmap Hfin.
  - rewrite andb_false_r. exists (ws_cpts_lst st), (ws_dof_lst st). cbn.
    rewrite qz_0, Qcplus_0_r. destruct st; cbn in *; by subst.
  - destruct (Hplain k_i) as [Hens Hcplx]; [apply list_elem_of_here|].
    assert (Hrest : plain_influences c rest).
    { intros k Hk. apply Hplain. by apply list_elem_of_further. }
    destruct rest as [|[k_next u_next] rest'].
    + cbn. rewrite andb_false_r. unfold ws_component. cbn. rewrite Hmap, Hfin.
      cbn. eexists _, _. do 2 f_equal. unfold cross. cbn. rewrite !qz_0. ring.
    + rewrite ws_outer_cons. cbv zeta. rewrite Hens, Hcplx.
      rewrite (bool_decide_eq_false_2 (size (∅ : gset uid) ≠ 0))
        by (rewrite size_empty; lia).
      cbn [andb]. unfold ws_component.
      cbn [ws_cpts_map ws_finish_complex ws_var ws_cpts_lst ws_dof_lst ws_df].
      rewrite Hmap, Hfin. cbn [cpts_map_mem mbind result_bind].
      rewrite (bool_decide_eq_false_2 (None = Some (k_i, k_next))) by done.
      cbn [ws_cpts_map ws_var ws_cpts_lst ws_dof_lst ws_df].
      rewrite ws_inner_plain. cbv zeta.
      change (has_illegal_pair c ((k_i, u_i) :: (k_next, u_next) :: rest'))
        with (existsb (fun kj : uid * float => illegal_pair c k_i kj.1)
                ((k_next, u_next) :: rest') ||
              has_illegal_pair c ((k_next, u_next) :: rest')).
      change (dvar c ((k_i, u_i) :: (k_next, u_next) :: rest'))
        with (u_i * u_i + cross c k_i u_i ((k_next, u_next) :: rest') +
              dvar c ((k_next, u_next) :: rest'))%Qc.
      set (tl := (k_next, u_next) :: rest') in *.
      set (bad := existsb _ tl).
      cbn [ws_var ws_cpts_lst ws_dof_lst ws_cpts_map ws_finish_complex ws_df].
      destruct dbg, bad; cbn [andb orb mbind result_bind]; try done.
      * specialize (IH (mkWS (ws_var st + u_i * u_i + cross c k_i u_i tl)%Qc
          (ws_cpts_lst st ++ [(u_i * u_i)%Qc])
          (ws_dof_lst st ++ [Leaf_df (leaf c k_i)]) [] false (ws_df st))
          Hrest eq_refl eq_refl).
        cbn [andb ws_var ws_df] in IH.
        destruct (has_illegal_pair c tl).
        -- exact IH.
        -- destruct IH as (l1 & l2 & ->). exists l1, l2.
           do 2 f_equal. ring.
      * specialize (IH (mkWS (ws_var st + u_i * u_i + cross c k_i u_i tl)%Qc
          (ws_cpts_lst st ++ [(u_i * u_i)%Qc])
          (ws_dof_lst st ++ [Leaf_df (leaf c k_i)]) [] false nan)
          Hrest eq_refl eq_refl).
        cbn [andb ws_var ws_df] in IH. destruct IH as (l1 & l2 & ->).
        exists l1, l2. rewrite Tauto.if_same. do 2 f_equal. ring.
      * specialize (IH (mkWS (ws_var st + u_i * u_i + cross c k_i u_i tl)%Qc
          (ws_cpts_lst st ++ [(u_i * u_i)%Qc])
          (ws_dof_lst st ++ [Leaf_df (leaf c k_i)]) [] false (ws_df st))
          Hrest eq_refl eq_refl).
        cbn [andb ws_var ws_df] in IH. destruct IH as (l1 & l2 & ->).
        exists l1, l2. do 2 f_equal. ring.
Qed.

Lemma ws_independent_spec (c : Context) (u_cpts : Vector) (st : ws_state) :
  ∃ l1 l2,
    ws_independent c u_cpts st =
      mkWS (ws_var st + usum u_cpts)%Qc l1 l2 (ws_cpts_map st)
        (ws_finish_complex st) (ws_df st).
Proof.
  unfold ws_independent. revert st.
  induction u_cpts as [|[k u] v IH]; intros st.
  - exists (ws_cpts_lst st), (ws_dof_lst st). cbn.
    unfold usum. cbn. rewrite qz_0, Qcplus_0_r. by destruct st.
  - cbn [foldl fst snd]. destruct (IH (mkWS (ws_var st + u * u)%Qc
        (ws_cpts_lst st ++ [(u * u)%Qc])
        (ws_dof_lst st ++ [Leaf_df (leaf c k)]) (ws_cpts_map st)
        (ws_finish_complex st) (ws_df st))) as (l1 & l2 & ->).
    exists l1, l2. cbn [ws_var ws_cpts_map ws_finish_complex ws_df]. f_equal.
    change (usum ((k, u) :: v)) with (u * u + usum v)%Qc. ring.
Qed.

Lemma xeqb_inf_is_infinity (d : xfloat) : xeqb d inf = true → is_infinity d = true.
Proof. by destruct d. Qed.

Lemma forallb_inf_is_infinity (c : Context) (v : Vector) (k : uid) :
  k ∈ keys v →
  forallb (fun d => xeqb d inf)
    (map (fun k_i => Leaf_df (leaf c k_i)) (keys v)) = true →
  is_infinity (Leaf_df (leaf c k)) = true.
Proof.
  intros Hk Hall. apply xeqb_inf_is_infinity.
  rewrite forallb_forall in Hall. apply Hall.
  apply in_map_iff. exists k. split; [done|]. by apply list_elem_of_In.
Qed.

Lemma has_illegal_pair_finite (c : Context) (v : Vector) :
  has_illegal_pair c v = true →
  forallb (fun d => xeqb d inf)
    (map (fun k_i => Leaf_df (leaf c k_i)) (keys v)) = false.
Proof.
  intros Hbad.
  destruct (forallb _ _) eqn:Hall; [|done]. exfalso.
  induction v as [|[k_i u_i] rest IH]; [done|].
  cbn in Hbad. apply orb_true_iff in Hbad as [Hbad|Hbad].
  - apply existsb_exists in Hbad as ([k_j u_j] & Hin & Hbad).
    unfold illegal_pair in Hbad. apply andb_true_iff in Hbad as [_ Hbad].
    cbn [fst] in Hbad.
    rewrite (forallb_inf_is_infinity c ((k_i, u_i) :: rest) k_i) in Hbad;
      [|apply list_elem_of_here|done].
    rewrite (forallb_inf_is_infinity c ((k_i, u_i) :: rest) k_j) in Hbad;
      [done| |done].
    apply list_elem_of_further. unfold keys.
    apply (list_elem_of_fmap_2 fst rest (k_j, u_j)). by apply list_elem_of_In.
  - apply IH; [done|]. cbn in Hall. by apply andb_true_iff in Hall as [_ ?].
Qed.

(** The rule of C1 in general, for dependent influences that belong to no
    ensemble and to no complex pair: when two of them are correlated and do
    not both have infinite degrees of freedom, [welch_satterthwaite]
    raises [AssertionError] with assertions enabled, and returns the
    variance of [std_variance_real] with [nan] degrees of freedom when
    they are disabled. *)
Lemma welch_satterthwaite_illegal (c : Context) (x : UncertainReal) :
  is_elementary x = false →
  plain_influences c (_d_components x) →
  has_illegal_pair c (_d_components x) = true →
  welch_satterthwaite sqrt true c x = Raise AssertionError ∧
  welch_satterthwaite sqrt false c x = Ok ((std_variance_real c x, nan), x).
Proof.
  intros He Hplain Hbad.
  assert (Hne : _d_components x ≠ []).
  { intros E. rewrite E in Hbad. done. }
  assert (Hconst : _is_uncertain_real_constant x = false).
  { unfold _is_uncertain_real_constant. apply andb_false_iff. right.
    apply bool_decide_eq_false_2. by destruct (_d_components x). }
  assert (Hlen : bool_decide (length (_d_components x) ≠ 0) = true).
  { apply bool_decide_eq_true_2. by destruct (_d_components x). }
  pose proof (has_illegal_pair_finite c _ Hbad) as Hfin.
  destruct (ws_independent_spec c (_u_components x)
              (mkWS (qz 0) [] [] [] false (Fin (qz 0)))) as (l1 & l2 & Hind).
  cbn [ws_var ws_cpts_map ws_finish_complex ws_df] in Hind.
  split.
  - unfold welch_satterthwaite. rewrite He, Hconst. cbv zeta.
    rewrite forallb_app, Hfin, andb_false_r, Hlen, Hind.
    pose proof (ws_outer_plain true c (_d_components x)
      (mkWS (qz 0 + usum (_u_components x))%Qc l1 l2 [] false (Fin (qz 0)))
      Hplain eq_refl eq_refl) as Hout.
    rewrite Hbad in Hout. cbn [andb] in Hout. by rewrite Hout.
  - unfold welch_satterthwaite. rewrite He, Hconst. cbv zeta.
    rewrite forallb_app, Hfin, andb_false_r, Hlen, Hind.
    pose proof (ws_outer_plain false c (_d_components x)
      (mkWS (qz 0 + usum (_u_components x))%Qc l1 l2 [] false (Fin (qz 0)))
      Hplain eq_refl eq_refl) as Hout.
    rewrite Hbad in Hout. cbn [andb] in Hout.
    destruct Hout as (l1' & l2' & ->).
    cbn [mbind result_bind ws_var ws_df]. rewrite Tauto.if_same.
    cbn [is_undefined nan]. do 3 f_equal.
    rewrite std_variance_real_closed, qz_0. ring.
Qed.

End Properties.

(** Decide a closed statement by evaluation. *)
Ltac evaluate := apply (bool_decide_unpack _); vm_compute; exact I.

(** C1, on the code: in the scenario of the illegal correlation the
    variance of the result is 7; [welch_satterthwaite] and the property
    [df] raise [AssertionError] when assertions are enabled, and return
    the variance 7 with [nan] degrees of freedom only when they are
    disabled.  [willink_hall] returns [nan] when the correlated leaves
    are components of two complex pairs; when they are plain real leaves
    it raises [AssertionError] with assertions enabled and returns a
    finite number of degrees of freedom without them. *)
Theorem illegal_correlation_dof (sqrt : float → float) :
  ('(c, x) ← illegal_correlation_scenario;
   Ok (_x x, _d_components x, std_variance_real c x)) =
    Ok (qz 4, [(1, qz 1); (2, qz 2); (3, qz 1)], qz 7) ∧
  ('(c, x) ← illegal_correlation_scenario; welch_satterthwaite sqrt true c x) =
    Raise AssertionError ∧
  ('(c, x) ← illegal_correlation_scenario; UncertainReal_df sqrt true c x) =
    Raise AssertionError ∧
  ('(c, x) ← illegal_correlation_scenario;
   '(vd, _) ← welch_satterthwaite sqrt false c x; Ok vd) =
    Ok (qz 7, nan) ∧
  ('(c, x) ← illegal_correlation_scenario;
   '(df, _) ← UncertainReal_df sqrt false c x; Ok df) = Ok nan ∧
  ('(c, z) ← illegal_correlation_pairs true;
   '(_, df, _) ← willink_hall sqrt true c z; Ok df) = Ok nan ∧
  ('(c, z) ← illegal_correlation_complex true; willink_hall sqrt true c z) =
    Raise AssertionError ∧
  ('(c, z) ← illegal_correlation_complex false;
   '(_, df, _) ← willink_hall sqrt false c z; Ok df) =
    Ok (Fin (qfrac 115 12)).
Proof. repeat split; evaluate. Qed.

(** ** Additivity of the variance in binary64 *)

Section Binary64Facts.

Import PrimFloat.




End Binary64Facts.

(** ** The variance-covariance matrix of an uncertain complex number *)

Lemma as_written_no_value {A : Type} (m : result Empty_set) :
  ∃ e, AsWritten.no_value (A := A) m = Raise e.
Proof. destruct m as [[]|e]. by exists e. Qed.

Lemma as_written_covariance_raises (sqrt : float → float) (c : Context)
    (x : UncertainComplex) (v_r v_i : float) (re' im' : UncertainReal) :
  UncertainReal_v sqrt c (real x) = Ok (v_r, re') →
  UncertainReal_v sqrt c (imag x) = Ok (v_i, im') →
  AsWritten.std_variance_covariance_complex sqrt c x = Raise NameError.
Proof.
  intros Hr Hi. unfold AsWritten.std_variance_covariance_complex.
  by rewrite Hr, Hi.
Qed.

(** C4, in the file as written.  For the elementary uncertain complex
    number [1+2j] with the uncertainties 1 and 2 and the correlation
    coefficient 0.5, the property [v] raises [NameError]: once the
    variances of the two components are read,
    [std_variance_covariance_complex] evaluates the name [real], which
    the module does not bind.  So does [v] for every uncertain complex
    number whose two variances can be read, and no number gets a matrix
    from it.  With the name read as the module [lib_real] the result at
    the example is the matrix [(1, 1, 1, 4)]: the two variances, and
    the covariance [1*0.5*2] twice; for the number
    [(x0+x1) + j(x0-x1)] over two uncorrelated leaves with the
    uncertainties 1 and 2 it is [(5, -3, -3, 5)], each leaf counted once
    with itself. *)
Theorem complex_v_raises_name_error (sqrt : float → float) :
  AsWritten.UncertainComplex_v sqrt complex_pair_state.1
    complex_pair_state.2 = Raise NameError ∧
  AsWritten.UncertainComplex_v sqrt two_leaves shared_complex =
    Raise NameError ∧
  (∀ c z, _v z = None →
     ∃ e, AsWritten.UncertainComplex_v sqrt c z = Raise e) ∧
  (∀ c z v_r v_i re' im',
     _v z = None →
     UncertainReal_v sqrt c (real z) = Ok (v_r, re') →
     UncertainReal_v sqrt c (imag z) = Ok (v_i, im') →
     AsWritten.UncertainComplex_v sqrt c z = Raise NameError) ∧
  ('(cv, _) ← UncertainComplex_v sqrt complex_pair_state.1
                complex_pair_state.2; Ok cv) =
    Ok (mkVarianceCovariance (qz 1) (qz 1) (qz 1) (qz 4)) ∧
  ('(cv, _) ← UncertainComplex_v sqrt two_leaves shared_complex; Ok cv) =
    Ok (mkVarianceCovariance (qz 5) (qz (-3)) (qz (-3)) (qz 5)).
Proof.
  split; [|split; [|split; [|split; [|split]]]].
  - vm_compute. reflexivity.
  - vm_compute. reflexivity.
  - intros c z Hv. unfold AsWritten.UncertainComplex_v. rewrite Hv.
    apply as_written_no_value.
  - intros c z v_r v_i re' im' Hv Hr Hi.
    unfold AsWritten.UncertainComplex_v. rewrite Hv.
    by rewrite (as_written_covariance_raises _ _ _ _ _ _ _ Hr Hi).
  - evaluate.
  - evaluate.
Qed.

(** ** The theorems at concrete inputs *)

(** The general rule at the scenario of the illegal correlation. *)
Lemma welch_satterthwaite_illegal_scenario (sqrt : float → float) :
  welch_satterthwaite sqrt true illegal_correlation_state.1
    illegal_correlation_state.2 = Raise AssertionError ∧
  welch_satterthwaite sqrt false illegal_correlation_state.1
    illegal_correlation_state.2 =
    Ok ((std_variance_real illegal_correlation_state.1
           illegal_correlation_state.2, nan), illegal_correlation_state.2).
Proof.
  apply (welch_satterthwaite_illegal sqrt illegal_correlation_state.1
           illegal_correlation_state.2).
  - reflexivity.
  - intros k Hk.
    change (k ∈ [1; 2; 3]) in Hk.
    repeat (apply elem_of_cons in Hk as [->|Hk]; [split; evaluate|]).
    inversion Hk.
  - by vm_compute.
Qed.

(** [elementary_properties] at [elementary(3, 0.1, 5)]. *)
Lemma elementary_properties_witness :
  ∃ c' un,
    UncertainReal_elementary empty_context (qz 3) (qfrac 1 10) (Fin (qz 5))
      None true = Ok (c', un) ∧
    UncertainReal_x un = qz 3 ∧
    UncertainReal_u sqrt_floor c' un = Ok (qfrac 1 10, set__u un (qfrac 1 10)) ∧
    UncertainReal_df sqrt_floor true c' un = Ok (Fin (qz 5), un) ∧
    UncertainReal_v sqrt_floor c' un =
      Ok ((qfrac 1 10 * qfrac 1 10)%Qc, set__u un (qfrac 1 10)).
Proof.
  apply (elementary_properties sqrt_floor true empty_context (qz 3)
           (qfrac 1 10) (Fin (qz 5)) None true).
  - vm_compute. discriminate.
  - reflexivity.
Defined.

(** [correlation_round_trip] at the leaves 0 and 1 with [r = -1/2]. *)
Lemma correlation_round_trip_witness :
  ∃ c',
    set_correlation_real sqrt_floor true two_leaves on_leaf_0 on_leaf_1
      (qfrac (-1) 2) = Ok c' ∧
    Leaf_correlation (leaf c' 0) !! 1 = Some (qfrac (-1) 2) ∧
    Leaf_correlation (leaf c' 1) !! 0 = Some (qfrac (-1) 2) ∧
    get_correlation_real sqrt_floor c' on_leaf_0 on_leaf_1 =
      Ok (qfrac (-1) 2) ∧
    get_correlation_real sqrt_floor c' on_leaf_1 on_leaf_0 =
      Ok (qfrac (-1) 2).
Proof.
  apply (correlation_round_trip sqrt_floor true two_leaves on_leaf_0
           on_leaf_1 0 1 (qfrac (-1) 2)); try reflexivity.
  discriminate.
Defined.

(** [intermediate_idempotent] at the sum of the two numbers. *)
Lemma intermediate_idempotent_witness :
  (∃ u : float,
     _i_components registered_once.2 =
       merge_vectors (_i_components derived_sum)
         [(_intermediate_id_counter two_leaves, u)] ∧
     _intermediate_id_counter registered_once.1 =
       S (_intermediate_id_counter two_leaves)) ∧
  UncertainReal_intermediate sqrt_floor registered_once.1 registered_once.2
    None = Ok (registered_once.1, registered_once.2).
Proof.
  apply (intermediate_idempotent sqrt_floor two_leaves derived_sum None None
           registered_once.1 registered_once.2); reflexivity.
Defined.


(** C5 as the spec has it fails: two uncertain reals that carry different
    contexts are added and divided without an error, and so are two
    elementary numbers made with two different registries. *)
Lemma add_mixes_contexts :
  let a := UncertainReal_init (Some 1) (qz 1) [(0, qz 1)] [] [] None in
  let b := UncertainReal_init (Some 2) (qz 2) [(1, qz 1)] [] [] None in
  _context a ≠ _context b ∧
  _add a (OpUncertainReal b) =
    UncertainReal_init (Some 1) (qz 3) [(0, qz 1); (1, qz 1)] [] [] None ∧
  _div a (OpUncertainReal b) =
    Ok (UncertainReal_init (Some 1) (qfrac 1 2)
          [(0, qfrac 1 2); (1, qfrac (-1) 4)] [] [] None) ∧
  ('(_, x) ← UncertainReal_elementary empty_context (qz 1) (qz 1) inf None
                true;
   '(_, y) ← UncertainReal_elementary two_leaves (qz 2) (qz 1) inf None true;
   Ok (_add x (OpUncertainReal y))) =
    Ok (UncertainReal_init None (qz 3) [(1, qz 1); (3, qz 1)] [] [] None).
Proof. cbv zeta. split; [discriminate|]. repeat split; evaluate. Qed.

(** * Further properties of the library *)

(** ** Sensitivity vectors under scaling and merging *)

Lemma scale_vector_1 (v : Vector) : scale_vector v (qz 1) = v.
Proof.
  unfold scale_vector. induction v as [|[k u] v IH]; [done|].
  simpl. rewrite IH. do 2 f_equal. rewrite qz_1. ring.
Qed.

Lemma usum_cons (k : uid) (u : float) (v : Vector) :
  usum ((k, u) :: v) = (u * u + usum v)%Qc.
Proof. done. Qed.

Lemma usum_nil : usum [] = 0%Qc.
Proof. apply qz_0. Qed.

Lemma usum_scale (v : Vector) (k : float) :
  usum (scale_vector v k) = (k * k * usum v)%Qc.
Proof.
  induction v as [|[i u] v IH].
  - change (scale_vector [] k) with ([] : Vector). rewrite usum_nil. ring.
  - change (scale_vector ((i, u) :: v) k)
      with ((i, (k * u)%Qc) :: scale_vector v k).
    rewrite !usum_cons, IH. ring.
Qed.

Lemma cross_nil (c : Context) (i : uid) (u : float) : cross c i u [] = 0%Qc.
Proof. apply qz_0. Qed.

Lemma cross_scale (c : Context) (i : uid) (u : float) (v : Vector)
    (k : float) :
  cross c i (k * u)%Qc (scale_vector v k) = (k * k * cross c i u v)%Qc.
Proof.
  induction v as [|[j w] v IH].
  - change (scale_vector [] k) with ([] : Vector). rewrite !cross_nil. ring.
  - change (scale_vector ((j, w) :: v) k)
      with ((j, (k * w)%Qc) :: scale_vector v k).
    rewrite !cross_cons, IH. ring.
Qed.

Lemma dvar_scale (c : Context) (v : Vector) (k : float) :
  dvar c (scale_vector v k) = (k * k * dvar c v)%Qc.
Proof.
  induction v as [|[i u] v IH].
  - simpl. rewrite qz_0. ring.
  - change (scale_vector ((i, u) :: v) k)
      with ((i, (k * u)%Qc) :: scale_vector v k).
    cbn [dvar]. rewrite cross_scale, IH. ring.
Qed.

(** A vector merged with itself: every key meets itself. *)
Lemma merge_weighted_vectors_self (a : Vector) (ca cb : float) :
  merge_weighted_vectors a ca a cb = scale_vector a (ca + cb)%Qc.
Proof.
  induction a as [|[k u] a IH]; [done|].
  simpl. rewrite Nat.ltb_irrefl, IH. do 2 f_equal. ring.
Qed.

(** The variance of a number whose components are those of [x] scaled by
    [k]. *)
Lemma std_variance_real_scaled (c : Context) (x y : UncertainReal)
    (k : float) :
  _u_components y = scale_vector (_u_components x) k →
  _d_components y = scale_vector (_d_components x) k →
  std_variance_real c y = (k * k * std_variance_real c x)%Qc.
Proof.
  intros Hu Hd. rewrite !std_variance_real_closed, Hu, Hd.
  rewrite usum_scale, dvar_scale. ring.
Qed.

Arguments scale_vector : simpl never.

(** ** Arithmetic with plain numbers *)

Lemma radd_add (l : float) (x : UncertainReal) :
  _radd l x = _add x (OpReal l).
Proof.
  unfold _radd, _add. destruct (Qceqb l (qz 0)); [done|]. f_equal. ring.
Qed.

Lemma rmul_mul (l : float) (x : UncertainReal) :
  _rmul l x = _mul x (OpReal l).
Proof.
  unfold _rmul, _mul. destruct (Qceqb l (qz 1)); [done|]. f_equal. ring.
Qed.

Lemma rsub_neg_sub (l : float) (x : UncertainReal) :
  _rsub l x = UncertainReal_neg (_sub x (OpReal l)).
Proof.
  unfold _rsub, _sub. destruct (Qceqb l (qz 0)); [done|].
  unfold UncertainReal_neg. cbn. rewrite !scale_vector_1. f_equal. ring.
Qed.

(** X1: the reflected operations with a plain number on the left agree
    with the direct ones: [l + x] is [x + l], [l * x] is [x * l] and
    [l - x] is [-(x - l)], in value and in every component of
    uncertainty. *)
Theorem reflected_operations (l : float) (x : UncertainReal) :
  _radd l x = _add x (OpReal l) ∧
  _rmul l x = _mul x (OpReal l) ∧
  _rsub l x = UncertainReal_neg (_sub x (OpReal l)).
Proof.
  split; [apply radd_add|]. split; [apply rmul_mul|apply rsub_neg_sub].
Qed.

(** X2: a division raises [ZeroDivisionError] exactly when the value of
    the divisor is zero, whatever its uncertainty: for an uncertain
    divisor (on either side of a plain or uncertain dividend) and for a
    plain divisor; otherwise it returns a number whose value is the
    quotient. *)
Theorem division_raises_iff_zero (x y : UncertainReal) (l k : float) :
  (_x y = qz 0 →
     _div x (OpUncertainReal y) = Raise ZeroDivisionError ∧
     _rdiv l y = Raise ZeroDivisionError) ∧
  (_x y ≠ qz 0 →
     (∃ q, _div x (OpUncertainReal y) = Ok q ∧ _x q = (_x x / _x y)%Qc) ∧
     (∃ q, _rdiv l y = Ok q ∧ _x q = (l / _x y)%Qc)) ∧
  _div x (OpReal (qz 0)) = Raise ZeroDivisionError ∧
  (k ≠ qz 0 → ∃ q, _div x (OpReal k) = Ok q ∧ _x q = (_x x / k)%Qc).
Proof.
  unfold _div, _rdiv, float_div. split; [|split; [|split]].
  - intros Hy. apply Qceqb_eq in Hy. by rewrite Hy.
  - intros Hy. apply Qceqb_neq in Hy. rewrite Hy. cbn. split; eauto.
  - done.
  - intros Hk. destruct (Qceqb k (qz 1)) eqn:E1.
    + apply Qceqb_eq in E1. subst k. exists x. split; [done|].
      rewrite qz_1. field. discriminate.
    + apply Qceqb_neq in Hk. rewrite Hk. cbn. eauto.
Qed.

(** X4: adding a plain number to an uncertain real or subtracting one from
    it, on either side, negating it and copying it with the unary plus
    leave the variance as it is. *)
Theorem variance_shift_invariant (c : Context) (x : UncertainReal)
    (b : float) :
  std_variance_real c (_add x (OpReal b)) = std_variance_real c x ∧
  std_variance_real c (_radd b x) = std_variance_real c x ∧
  std_variance_real c (_sub x (OpReal b)) = std_variance_real c x ∧
  std_variance_real c (_rsub b x) = std_variance_real c x ∧
  std_variance_real c (UncertainReal_neg x) = std_variance_real c x ∧
  std_variance_real c (UncertainReal_pos x) = std_variance_real c x.
Proof.
  assert (Hneg : ∀ y, std_variance_real c (UncertainReal_neg y) =
                        std_variance_real c y).
  { intros y. rewrite (std_variance_real_scaled c y _ (qz (-1))) by done.
    replace (qz (-1) * qz (-1))%Qc with 1%Qc by (by apply Qc_is_canon).
    ring. }
  assert (Hadd : std_variance_real c (_add x (OpReal b)) =
                   std_variance_real c x).
  { unfold _add. destruct (Qceqb b (qz 0)); [done|].
    rewrite (std_variance_real_scaled c x _ (qz 1)) by done.
    rewrite qz_1. ring. }
  assert (Hsub : std_variance_real c (_sub x (OpReal b)) =
                   std_variance_real c x).
  { unfold _sub. destruct (Qceqb b (qz 0)); [done|].
    rewrite (std_variance_real_scaled c x _ (qz 1)) by done.
    rewrite qz_1. ring. }
  repeat split; try done.
  - by rewrite radd_add.
  - by rewrite rsub_neg_sub, Hneg.
Qed.


(** ** Setting correlations *)

(** X7: [set_correlation_real] fails exactly when one of the two numbers
    is not elementary, when one of the two leaves is independent, or when
    a number is correlated with itself by a coefficient other than 1.0; in
    every other case it succeeds.  For two elementary numbers the
    exception is [RuntimeError].  When a number is not elementary, the
    message of the [RuntimeError] is formatted from [repr(x1)] and
    [repr(x2)] first, which read [.u] and [.df]: an exception of theirs
    is the one that is raised, as the [AssertionError] for the number of
    the illegal-correlation scenario. *)
Theorem set_correlation_raises_iff (sqrt : float → float) (dbg : bool)
    (c : Context) (x1 x2 : UncertainReal) (r : float) :
  (is_elementary x1 && is_elementary x2 = false →
     (∃ e, set_correlation_real sqrt dbg c x1 x2 r = Raise e) ∧
     (∀ e, UncertainReal_repr sqrt dbg c x1 = Raise e →
        set_correlation_real sqrt dbg c x1 x2 r = Raise e) ∧
     (∀ e, UncertainReal_repr sqrt dbg c x1 = Ok tt →
        UncertainReal_repr sqrt dbg c x2 = Raise e →
        set_correlation_real sqrt dbg c x1 x2 r = Raise e) ∧
     (UncertainReal_repr sqrt dbg c x1 = Ok tt →
      UncertainReal_repr sqrt dbg c x2 = Ok tt →
        set_correlation_real sqrt dbg c x1 x2 r = Raise RuntimeError)) ∧
  (∀ k1 k2,
     is_elementary x1 = true → _node x1 = Some (LeafRef k1) →
     is_elementary x2 = true → _node x2 = Some (LeafRef k2) →
     ((∃ e, set_correlation_real sqrt dbg c x1 x2 r = Raise e) ↔
        (Leaf_independent (leaf c k1) = true ∨
         Leaf_independent (leaf c k2) = true ∨
         (k1 = k2 ∧ r ≠ qz 1))) ∧
     (∀ e, set_correlation_real sqrt dbg c x1 x2 r = Raise e →
        e = RuntimeError)) ∧
  set_correlation_real sqrt true illegal_correlation_state.1
    illegal_correlation_state.2 illegal_correlation_state.2 r =
    Raise AssertionError.
Proof.
  split; [|split].
  - unfold set_correlation_real. intros ->.
    destruct (UncertainReal_repr sqrt dbg c x1) as [[]|e1]; cbn.
    + destruct (UncertainReal_repr sqrt dbg c x2) as [[]|e2]; cbn.
      * split; [eauto|]. repeat split; done.
      * split; [eauto|]. split; [done|]. split; [|done]. by intros e _ [= ->].
    + split; [eauto|]. split; [by intros e [= ->]|]. split; done.
  - unfold set_correlation_real, elementary_leaf.
    intros k1 k2 -> -> -> ->. cbn.
    destruct (Leaf_independent (leaf c k1)) eqn:Hi1; cbn.
    { split; [split; eauto|]. by intros e [= <-]. }
    destruct (Leaf_independent (leaf c k2)) eqn:Hi2; cbn.
    { split; [split; eauto|]. by intros e [= <-]. }
    case_bool_decide as Hk; cbn.
    + destruct (Qceqb r (qz 1)) eqn:Hr; cbn.
      * apply Qceqb_eq in Hr. split; [|done].
        split; [by intros [e He]|]. intros [?|[?|[_ ?]]]; done.
      * apply Qceqb_neq in Hr. split; [split; eauto|]. by intros e [= <-].
    + split; [|done]. split; [by intros [e He]|].
      intros [?|[?|[? _]]]; done.
  - evaluate.
Qed.

Lemma set_correlation_real_inv (sqrt : float → float) (dbg : bool)
    (c : Context) (x1 x2 : UncertainReal) (r : float) (c' : Context)
    (k1 k2 : uid) :
  _node x1 = Some (LeafRef k1) → _node x2 = Some (LeafRef k2) →
  set_correlation_real sqrt dbg c x1 x2 r = Ok c' →
  c' = set_leaf_correlation (set_leaf_correlation c k1 k2 r) k2 k1 r ∧
  Leaf_independent (leaf c k1) = false ∧
  Leaf_independent (leaf c k2) = false.
Proof.
  intros Hn1 Hn2. unfold set_correlation_real, elementary_leaf.
  rewrite Hn1, Hn2.
  destruct (is_elementary x1 && is_elementary x2);
    [|by destruct (UncertainReal_repr sqrt dbg c x1) as [[]|?];
         [destruct (UncertainReal_repr sqrt dbg c x2) as [[]|?]|]]. cbn.
  destruct (Leaf_independent (leaf c k1)); [done|].
  destruct (Leaf_independent (leaf c k2)); [done|]. cbn.
  destruct (bool_decide (k1 = k2) && negb (Qceqb r (qz 1))); [done|].
  by intros [= <-].
Qed.

(** The correlation maps after the two assignments of
    [set_correlation_real]. *)
Lemma correlation_after_set (c : Context) (k1 k2 : uid) (r : float)
    (k j : uid) :
  Leaf_correlation
    (leaf (set_leaf_correlation (set_leaf_correlation c k1 k2 r) k2 k1 r) k)
    !! j =
  if bool_decide ((k = k1 ∧ j = k2) ∨ (k = k2 ∧ j = k1)) then Some r
  else Leaf_correlation (leaf c k) !! j.
Proof.
  rewrite !leaf_set_leaf_correlation.
  destruct (decide (k2 = k)) as [->|Hk2].
  - rewrite (bool_decide_eq_true_2 (k = k)) by done. cbn.
    destruct (decide (j = k1)) as [->|Hj].
    + rewrite lookup_insert_eq.
      by rewrite (bool_decide_eq_true_2 (_ ∨ _)) by (by right).
    + rewrite lookup_insert_ne by done.
      destruct (decide (k1 = k)) as [->|Hk1].
      * rewrite (bool_decide_eq_true_2 (k = k)) by done. cbn.
        rewrite lookup_insert_ne by done.
        by rewrite (bool_decide_eq_false_2 (_ ∨ _)) by (intros [[? ?]|[? ?]]; congruence).
      * rewrite (bool_decide_eq_false_2 (k1 = k)) by done.
        by rewrite (bool_decide_eq_false_2 (_ ∨ _)) by (intros [[? ?]|[? ?]]; congruence).
  - rewrite (bool_decide_eq_false_2 (k2 = k)) by done.
    destruct (decide (k1 = k)) as [->|Hk1].
    + rewrite (bool_decide_eq_true_2 (k = k)) by done. cbn.
      destruct (decide (j = k2)) as [->|Hj].
      * rewrite lookup_insert_eq.
        by rewrite (bool_decide_eq_true_2 (_ ∨ _)) by (by left).
      * rewrite lookup_insert_ne by done.
        by rewrite (bool_decide_eq_false_2 (_ ∨ _)) by (intros [[? ?]|[? ?]]; congruence).
    + rewrite (bool_decide_eq_false_2 (k1 = k)) by done.
      by rewrite (bool_decide_eq_false_2 (_ ∨ _)) by (intros [[? ?]|[? ?]]; congruence).
Qed.

(** The attributes of a leaf that the two assignments leave alone. *)
Lemma leaf_after_set (c : Context) (k1 k2 : uid) (r : float) (k : uid) :
  let c' := set_leaf_correlation (set_leaf_correlation c k1 k2 r) k2 k1 r in
  Leaf_label (leaf c' k) = Leaf_label (leaf c k) ∧
  Leaf_u (leaf c' k) = Leaf_u (leaf c k) ∧
  Leaf_df (leaf c' k) = Leaf_df (leaf c k) ∧
  Leaf_independent (leaf c' k) = Leaf_independent (leaf c k) ∧
  Leaf_ensemble (leaf c' k) = Leaf_ensemble (leaf c k) ∧
  Leaf_complex (leaf c' k) = Leaf_complex (leaf c k).
Proof.
  cbv zeta. rewrite !leaf_set_leaf_correlation.
  destruct (decide (k2 = k)) as [->|Hk2];
    [rewrite (bool_decide_eq_true_2 (k = k)) by done
    |rewrite (bool_decide_eq_false_2 (k2 = k)) by done];
    (destruct (decide (k1 = k)) as [->|Hk1];
      [rewrite ?(bool_decide_eq_true_2 (k = k)) by done
      |rewrite ?(bool_decide_eq_false_2 (k1 = k)) by done]); done.
Qed.

Lemma cross_ext (c c' : Context) (i : uid) (u : float) (v : Vector) :
  (∀ j, j ∈ keys v → correlation_get c i j = correlation_get c' i j) →
  cross c i u v = cross c' i u v.
Proof.
  unfold keys. induction v as [|[j w] v IH]; intros H; [done|].
  rewrite !cross_cons, IH, (H j); [done|apply list_elem_of_here|].
  intros j' Hj'. apply H. by apply list_elem_of_further.
Qed.

Lemma dvar_ext (c c' : Context) (v : Vector) :
  (∀ i j, i ∈ keys v → j ∈ keys v →
     correlation_get c i j = correlation_get c' i j) →
  dvar c v = dvar c' v.
Proof.
  unfold keys. induction v as [|[i u] v IH]; intros H; [done|].
  cbn [dvar]. rewrite IH, (cross_ext c c').
  - done.
  - intros j Hj. apply H; [apply list_elem_of_here|].
    by apply list_elem_of_further.
  - intros i' j' Hi' Hj'. apply H; by apply list_elem_of_further.
Qed.

(** X8: a successful [set_correlation_real] on the leaves [k1] and [k2]
    changes nothing but the entry for [k2] in the correlation map of [k1]
    and the entry for [k1] in the map of [k2]: the id counters, the
    intermediate nodes, the other attributes of every leaf and all other
    coefficients stay as they are, and so does the variance of every
    number that does not depend on both leaves. *)
Theorem set_correlation_frame (sqrt : float → float) (dbg : bool)
    (c : Context) (x1 x2 : UncertainReal) (r : float) (c' : Context)
    (k1 k2 : uid) :
  _node x1 = Some (LeafRef k1) → _node x2 = Some (LeafRef k2) →
  set_correlation_real sqrt dbg c x1 x2 r = Ok c' →
  (_elementary_id_counter c' = _elementary_id_counter c ∧
   _intermediate_id_counter c' = _intermediate_id_counter c ∧
   _registered_intermediate_nodes c' = _registered_intermediate_nodes c) ∧
  (∀ k,
     Leaf_label (leaf c' k) = Leaf_label (leaf c k) ∧
     Leaf_u (leaf c' k) = Leaf_u (leaf c k) ∧
     Leaf_df (leaf c' k) = Leaf_df (leaf c k) ∧
     Leaf_independent (leaf c' k) = Leaf_independent (leaf c k) ∧
     Leaf_ensemble (leaf c' k) = Leaf_ensemble (leaf c k) ∧
     Leaf_complex (leaf c' k) = Leaf_complex (leaf c k)) ∧
  (∀ k j, ¬ (k = k1 ∧ j = k2) → ¬ (k = k2 ∧ j = k1) →
     Leaf_correlation (leaf c' k) !! j = Leaf_correlation (leaf c k) !! j) ∧
  (∀ y, k1 ∉ keys (_d_components y) ∨ k2 ∉ keys (_d_components y) →
     std_variance_real c' y = std_variance_real c y).
Proof.
  intros Hn1 Hn2 Hset.
  destruct (set_correlation_real_inv _ _ _ _ _ _ _ _ _ Hn1 Hn2 Hset)
    as (-> & _ & _).
  assert (Hother : ∀ k j, ¬ (k = k1 ∧ j = k2) → ¬ (k = k2 ∧ j = k1) →
    Leaf_correlation
      (leaf (set_leaf_correlation (set_leaf_correlation c k1 k2 r) k2 k1 r) k)
      !! j = Leaf_correlation (leaf c k) !! j).
  { intros k j H1 H2. rewrite correlation_after_set.
    by rewrite (bool_decide_eq_false_2 (_ ∨ _)) by (intros [?|?]; done). }
  split; [done|]. split; [intros k; apply leaf_after_set|].
  split; [done|].
  intros y Hy. rewrite !std_variance_real_closed. f_equal.
  apply dvar_ext. intros i j Hi Hj. unfold correlation_get.
  rewrite Hother; [done| |]; intros [-> ->]; destruct Hy; done.
Qed.

(** ** Invariants of the registry *)

Lemma elementary_inv (c : Context) (x u : float) (df : xfloat) (l : label)
    (independent : bool) (c' : Context) (un : UncertainReal) :
  UncertainReal_elementary c x u df l independent = Ok (c', un) →
  c' = (new_leaf (_next_elementary_id c).2 (S (_elementary_id_counter c)) l u
          df independent).2 ∧
  un = UncertainReal_init None x
         (if independent then [(S (_elementary_id_counter c), u)] else [])
         (if independent then [] else [(S (_elementary_id_counter c), u)]) []
         (Some (LeafRef (S (_elementary_id_counter c)))).
Proof.
  intros H.
  destruct (xlt df (Fin (qz 1))) eqn:Hdf;
    [unfold UncertainReal_elementary in H; by rewrite Hdf in H|].
  destruct (Qcltb u (qz 0)) eqn:Hu;
    [unfold UncertainReal_elementary in H; by rewrite Hdf, Hu in H|].
  rewrite (elementary_ok _ _ _ _ _ _ Hdf Hu) in H. cbv zeta in H.
  by injection H as <- <-.
Qed.

Lemma leaf_new_leaf (c : Context) (k : uid) (l : label) (u : float)
    (df : xfloat) (independent : bool) (k' : uid) :
  leaf (new_leaf (_next_elementary_id c).2 k l u df independent).2 k' =
    if bool_decide (k = k') then
      mkLeaf l u df independent (if independent then ∅ else {[k := qz 1]})
        ∅ None
    else leaf c k'.
Proof.
  unfold new_leaf. cbn [snd]. case_bool_decide as H.
  - subst. by rewrite leaf_insert_eq.
  - by rewrite leaf_insert_ne.
Qed.

Lemma leaf_set_leaf_complex (c : Context) (ln : uid) (id : uid * uid)
    (k' : uid) :
  leaf (set_leaf_complex c ln id) k' =
    if bool_decide (ln = k') then
      mkLeaf (Leaf_label (leaf c ln)) (Leaf_u (leaf c ln))
        (Leaf_df (leaf c ln)) (Leaf_independent (leaf c ln))
        (Leaf_correlation (leaf c ln)) (Leaf_ensemble (leaf c ln)) (Some id)
    else leaf c k'.
Proof.
  unfold set_leaf_complex. case_bool_decide as H.
  - subst. by rewrite leaf_insert_eq.
  - by rewrite leaf_insert_ne.
Qed.

Lemma intermediate_leaves (sqrt : float → float) (c : Context)
    (un : UncertainReal) (l : label) (c' : Context) (un' : UncertainReal) :
  UncertainReal_intermediate sqrt c un l = Ok (c', un') →
  _registered_leaf_nodes c' = _registered_leaf_nodes c ∧
  _elementary_id_counter c' = _elementary_id_counter c.
Proof.
  unfold UncertainReal_intermediate, _next_intermediate_id.
  destruct (is_elementary un); cbn; [by intros [= <- _]|].
  destruct (is_intermediate un); cbn; [by intros [= <- _]|].
  destruct (UncertainReal_u sqrt _ un) as [[u un1]|e]; cbn; [|done].
  by intros [= <- _].
Qed.

(** ** Covariance and correlation *)

Lemma fsum_nil : fsum [] = 0%Qc.
Proof. apply qz_0. Qed.

Lemma fsum_cons (x : float) (l : list float) : fsum (x :: l) = (x + fsum l)%Qc.
Proof. done. Qed.

Lemma fsum_map_ext {A} (f g : A → float) (l : list A) :
  (∀ x, f x = g x) → fsum (map f l) = fsum (map g l).
Proof. intros H. f_equal. apply map_ext. intros x. apply H. Qed.

(** X11: after [set_correlation_real(x1,x2,r)] on two different
    elementary numbers, [get_covariance_real] returns [u1*r*u2] for the
    pair, in both orders. *)
Theorem covariance_after_set_correlation (sqrt : float → float)
    (dbg : bool) (c : Context) (x1 x2 : UncertainReal) (k1 k2 : uid)
    (r : float) (c' : Context) :
  is_elementary x1 = true → _node x1 = Some (LeafRef k1) →
  is_elementary x2 = true → _node x2 = Some (LeafRef k2) →
  k1 ≠ k2 →
  set_correlation_real sqrt dbg c x1 x2 r = Ok c' →
  get_covariance_real c' x1 x2 =
    Ok (Leaf_u (leaf c k1) * r * Leaf_u (leaf c k2))%Qc ∧
  get_covariance_real c' x2 x1 =
    Ok (Leaf_u (leaf c k2) * r * Leaf_u (leaf c k1))%Qc.
Proof.
  intros He1 Hn1 He2 Hn2 Hne Hset.
  destruct (set_correlation_real_inv _ _ _ _ _ _ _ _ _ Hn1 Hn2 Hset)
    as (-> & Hi1 & Hi2).
  unfold get_covariance_real, elementary_leaf, correlation_get.
  rewrite He1, He2, Hn1, Hn2. cbn.
  rewrite !correlation_after_set.
  destruct (leaf_after_set c k1 k2 r k1) as (_ & -> & _ & -> & _).
  destruct (leaf_after_set c k1 k2 r k2) as (_ & -> & _ & -> & _).
  rewrite Hi1, Hi2.
  rewrite (bool_decide_eq_true_2 ((k1 = k1 ∧ k2 = k2) ∨ _)) by (by left).
  rewrite (bool_decide_eq_true_2 (_ ∨ (k2 = k2 ∧ k1 = k1))) by (by right).
  done.
Qed.

(** X12: for two elementary numbers made one after the other with
    [independent=True], [get_covariance_real] returns the product [u1*u2]
    of their uncertainties, although [std_covariance_real] returns zero
    for the same pair: the branch for an independent leaf does not ask
    whether the two leaves are the same.  [get_correlation_real] raises
    [AttributeError] for the pair: it reads the correlation map of the
    first leaf, which an independent leaf does not have. *)
Theorem covariance_of_independent_elementary (sqrt : float → float)
    (c : Context) (v1 u1 : float) (df1 : xfloat) (l1 : label)
    (v2 u2 : float) (df2 : xfloat) (l2 : label)
    (c1 c2 : Context) (x1 x2 : UncertainReal) :
  UncertainReal_elementary c v1 u1 df1 l1 true = Ok (c1, x1) →
  UncertainReal_elementary c1 v2 u2 df2 l2 true = Ok (c2, x2) →
  get_covariance_real c2 x1 x2 = Ok (u1 * u2)%Qc ∧
  std_covariance_real c2 x1 x2 = qz 0 ∧
  get_correlation_real sqrt c2 x1 x2 = Raise AttributeError.
Proof.
  intros H1 H2.
  apply elementary_inv in H1 as [-> ->]. apply elementary_inv in H2 as [-> ->].
  set (k := S (_elementary_id_counter c)).
  assert (Hk : _elementary_id_counter
                 (new_leaf (_next_elementary_id c).2 k l1 u1 df1 true).2 = k)
    by done.
  rewrite Hk. clear Hk. clearbody k.
  unfold get_covariance_real, get_correlation_real, std_covariance_real,
    elementary_leaf, correlation_get, leaf_correlation.
  cbn [UncertainReal_init is_elementary _node andb mbind result_bind
       _u_components _d_components].
  rewrite !leaf_new_leaf.
  rewrite (bool_decide_eq_true_2 (S k = S k)) by done.
  rewrite (bool_decide_eq_false_2 (S k = k)) by lia.
  rewrite (bool_decide_eq_true_2 (k = k)) by done.
  rewrite (bool_decide_eq_false_2 (k = S k)) by lia.
  cbn. change (match k with 0 => false | S m' => k =? m' end)
    with (S k =? k).
  rewrite (proj2 (Nat.eqb_neq (S k) k)) by lia.
  split; [done|]. split; [|done]. rewrite qz_0. ring.
Qed.

(** ** The cached uncertainty *)

Lemma UncertainReal_u_cached (sqrt : float → float) (c : Context)
    (x x' : UncertainReal) (u : float) :
  UncertainReal_u sqrt c x = Ok (u, x') → _u x' = Some u.
Proof.
  unfold UncertainReal_u. destruct (_u x) as [u0|] eqn:Hu.
  - by intros [= <- <-].
  - destruct (is_elementary x || is_intermediate x).
    + destruct (node_u c (_node x)); cbn; [|done]. by intros [= <- <-].
    + destruct (math_sqrt sqrt _); cbn; [|done]. by intros [= <- <-].
Qed.

Lemma UncertainReal_v_cached (sqrt : float → float) (c : Context)
    (x x' : UncertainReal) (v : float) :
  UncertainReal_v sqrt c x = Ok (v, x') → ∃ u, _u x' = Some u.
Proof.
  unfold UncertainReal_v, UncertainReal_u. destruct (_u x) as [u0|] eqn:Hu.
  - cbn. intros [= _ <-]. eauto.
  - destruct (is_elementary x || is_intermediate x).
    + destruct (node_u c (_node x)); cbn; [|done]. intros [= _ <-]. cbn. eauto.
    + destruct (math_sqrt sqrt _); cbn; [|done]. intros [= _ <-]. cbn. eauto.
Qed.

(** X13: the standard uncertainty is computed once: after a first read of
    [.u] or [.v] has succeeded, every later read of [.u] returns the same
    number [u] and every later read of [.v] returns [u*u], in whatever
    state the registry then is (a correlation that is set afterwards does
    not reach the number), and the object is no longer changed. *)
Theorem uncertainty_is_cached (sqrt : float → float) (c : Context)
    (x x' : UncertainReal) :
  (∀ u, UncertainReal_u sqrt c x = Ok (u, x') →
     ∀ c', UncertainReal_u sqrt c' x' = Ok (u, x') ∧
           UncertainReal_v sqrt c' x' = Ok ((u * u)%Qc, x')) ∧
  (∀ v, UncertainReal_v sqrt c x = Ok (v, x') →
     ∃ u, ∀ c', UncertainReal_u sqrt c' x' = Ok (u, x') ∧
                UncertainReal_v sqrt c' x' = Ok ((u * u)%Qc, x')).
Proof.
  assert (Hcached : ∀ u, _u x' = Some u →
            ∀ c', UncertainReal_u sqrt c' x' = Ok (u, x') ∧
                  UncertainReal_v sqrt c' x' = Ok ((u * u)%Qc, x')).
  { intros u Hu c'. unfold UncertainReal_v, UncertainReal_u. by rewrite Hu. }
  split.
  - intros u H. apply Hcached. by apply (UncertainReal_u_cached sqrt c x).
  - intros v H. destruct (UncertainReal_v_cached sqrt c x x' v H) as [u Hu].
    exists u. by apply Hcached.
Qed.

(** ** Registration of intermediate results, continued *)

Lemma leaf_same_leaves (c c' : Context) (k : uid) :
  _registered_leaf_nodes c' = _registered_leaf_nodes c → leaf c' k = leaf c k.
Proof. unfold leaf. by intros ->. Qed.

Lemma std_variance_real_same_leaves (c c' : Context) (x : UncertainReal) :
  _registered_leaf_nodes c' = _registered_leaf_nodes c →
  std_variance_real c' x = std_variance_real c x.
Proof.
  intros H. rewrite !std_variance_real_closed. f_equal.
  apply dvar_ext. intros i j _ _. unfold correlation_get.
  by rewrite (leaf_same_leaves c c' i H).
Qed.

Lemma UncertainReal_u_same_leaves (sqrt : float → float) (c c' : Context)
    (x : UncertainReal) :
  _registered_leaf_nodes c' = _registered_leaf_nodes c →
  UncertainReal_u sqrt c' x = UncertainReal_u sqrt c x.
Proof.
  intros H. unfold UncertainReal_u.
  rewrite (std_variance_real_same_leaves c c' x H).
  destruct (_node x) as [[l|k|n]|]; cbn; try done.
  by rewrite (leaf_same_leaves c c' k H).
Qed.

(** X14: registering an uncertain real as an intermediate result leaves
    its value, its independent and dependent components and the leaves of
    the registry as they are, allocates no elementary id, and the
    uncertainty [.u] that the number reports after the registration is the
    one it reported before. *)
Theorem intermediate_keeps_number (sqrt : float → float) (c : Context)
    (un : UncertainReal) (l : label) (c' : Context) (un' : UncertainReal) :
  UncertainReal_intermediate sqrt c un l = Ok (c', un') →
  _x un' = _x un ∧
  _u_components un' = _u_components un ∧
  _d_components un' = _d_components un ∧
  is_elementary un' = is_elementary un ∧
  _registered_leaf_nodes c' = _registered_leaf_nodes c ∧
  _elementary_id_counter c' = _elementary_id_counter c ∧
  (∀ u x1, UncertainReal_u sqrt c un = Ok (u, x1) →
     ∃ x2, UncertainReal_u sqrt c' un' = Ok (u, x2)).
Proof.
  intros H. destruct (intermediate_leaves sqrt c un l c' un' H) as [Hl Hc].
  revert H. unfold UncertainReal_intermediate, _next_intermediate_id.
  destruct (is_elementary un) eqn:He; cbn.
  { intros [= <- <-]. repeat split; try done. eauto. }
  destruct (is_intermediate un) eqn:Hi; cbn.
  { intros [= <- <-]. repeat split; try done. eauto. }
  match goal with
  | |- context [UncertainReal_u sqrt ?c1 un] =>
      rewrite (UncertainReal_u_same_leaves sqrt c c1 un eq_refl)
  end.
  destruct (UncertainReal_u sqrt c un) as [[u un1]|e] eqn:Hu; cbn; [|done].
  intros [= <- <-]. cbn.
  pose proof (UncertainReal_u_cached sqrt c un un1 u Hu) as Hcache.
  assert (Hsame : _x un1 = _x un ∧ _u_components un1 = _u_components un ∧
                  _d_components un1 = _d_components un ∧
                  is_elementary un1 = is_elementary un).
  { revert Hu. unfold UncertainReal_u. rewrite He, Hi. cbn.
    destruct (_u un).
    - by intros [= _ <-].
    - destruct (math_sqrt sqrt _); cbn; [|done]. by intros [= _ <-]. }
  destruct Hsame as (Hx & Hcu & Hcd & He1).
  rewrite He1, He. repeat split; try done.
  intros u' x1 [= <- <-]. unfold UncertainReal_u. cbn. rewrite Hcache. eauto.
Qed.

(** ** Welch-Satterthwaite: the formula *)

Lemma forallb_inf_true (c : Context) (ks : list uid) :
  (∀ k, k ∈ ks → Leaf_df (leaf c k) = inf) →
  forallb (fun d => xeqb d inf) (map (fun k_i => Leaf_df (leaf c k_i)) ks) =
    true.
Proof.
  intros H. apply forallb_forall. intros d Hd.
  apply in_map_iff in Hd as (k & <- & Hk).
  rewrite (H k); [done|]. by apply list_elem_of_In.
Qed.

(** X16: a derived uncertain real all of whose influences have infinite
    degrees of freedom has infinite degrees of freedom, whatever the
    correlations between its influences: [welch_satterthwaite] and the
    property [df] return [inf] when the variance is not negative, and no
    assertion is involved.  (A negative variance, which coefficients
    outside [-1,1] can produce, makes [math.sqrt] raise [ValueError].) *)
Theorem welch_satterthwaite_infinite (sqrt : float → float) (dbg : bool)
    (c : Context) (x : UncertainReal) :
  is_elementary x = false → is_intermediate x = false → _u x = None →
  (∀ k, k ∈ keys (_u_components x ++ _d_components x) →
     Leaf_df (leaf c k) = inf) →
  ((qz 0 <= std_variance_real c x)%Qc →
     ∃ x', welch_satterthwaite sqrt dbg c x =
             Ok ((std_variance_real c x, inf), x') ∧
           UncertainReal_df sqrt dbg c x = Ok (inf, x')) ∧
  ((std_variance_real c x < qz 0)%Qc →
     welch_satterthwaite sqrt dbg c x = Raise ValueError).
Proof.
  intros He Hi Hu Hinf.
  assert (Hall : forallb (fun d => xeqb d inf)
            (map (fun k_i => Leaf_df (leaf c k_i)) (keys (_u_components x)) ++
             map (fun k_i => Leaf_df (leaf c k_i)) (keys (_d_components x))) =
            true).
  { rewrite <- map_app. apply forallb_inf_true. intros k Hk. apply Hinf.
    unfold keys in *. by rewrite fmap_app. }
  unfold UncertainReal_df, welch_satterthwaite. rewrite He. cbv zeta.
  rewrite Hall. unfold UncertainReal_v. rewrite Hu, He, Hi. cbn [orb].
  unfold math_sqrt. split.
  - intros Hpos.
    destruct (_is_uncertain_real_constant x) eqn:Hconst.
    + exists x. cbn. split; [|done]. do 3 f_equal.
      unfold _is_uncertain_real_constant in Hconst.
      apply andb_true_iff in Hconst as [H1 H2].
      apply bool_decide_eq_true_1 in H1, H2.
      rewrite std_variance_real_closed.
      destruct (_u_components x), (_d_components x); done.
    + apply Qcltb_ge in Hpos. rewrite Hpos. cbn. eauto.
  - intros Hneg.
    destruct (_is_uncertain_real_constant x) eqn:Hconst.
    + exfalso. unfold _is_uncertain_real_constant in Hconst.
      apply andb_true_iff in Hconst as [H1 H2].
      apply bool_decide_eq_true_1 in H1, H2.
      rewrite std_variance_real_closed in Hneg.
      destruct (_u_components x), (_d_components x); done.
    + apply Qcltb_lt in Hneg. by rewrite Hneg.
Qed.

(** ** Elementary uncertain complex numbers *)

(** The two leaves of a new elementary uncertain complex number, before
    a coefficient is written. *)
Lemma complex_elementary_leaves (c : Context) (u_r u_i : float)
    (df : xfloat) (l_r l_i : label) (independent : bool) :
  let k_re : uid := S (_elementary_id_counter c) in
  let c1 := (new_leaf (_next_elementary_id c).2 k_re l_r u_r df
               independent).2 in
  let k_im : uid := S k_re in
  let c2 := (new_leaf (_next_elementary_id c1).2 k_im l_i u_i df
               independent).2 in
  let c4 := set_leaf_complex (set_leaf_complex c2 k_re (k_re, k_im)) k_im
              (k_re, k_im) in
  leaf c4 k_re =
    mkLeaf l_r u_r df independent
      (if independent then ∅ else {[k_re := qz 1]}) ∅ (Some (k_re, k_im)) ∧
  leaf c4 k_im =
    mkLeaf l_i u_i df independent
      (if independent then ∅ else {[k_im := qz 1]}) ∅ (Some (k_re, k_im)).
Proof.
  cbv zeta. set (k := S (_elementary_id_counter c)).
  set (c1 := (new_leaf (_next_elementary_id c).2 k l_r u_r df independent).2).
  set (c2 := (new_leaf (_next_elementary_id c1).2 (S k) l_i u_i df
                independent).2).
  assert (H2re : leaf c2 k =
                   mkLeaf l_r u_r df independent
                     (if independent then ∅ else {[k := qz 1]}) ∅ None).
  { unfold c2. rewrite leaf_new_leaf.
    rewrite (bool_decide_eq_false_2 (S k = k)) by lia.
    unfold c1. rewrite leaf_new_leaf.
    by rewrite (bool_decide_eq_true_2 (k = k)). }
  assert (H2im : leaf c2 (S k) =
                   mkLeaf l_i u_i df independent
                     (if independent then ∅ else {[S k := qz 1]}) ∅ None).
  { unfold c2. rewrite leaf_new_leaf.
    by rewrite (bool_decide_eq_true_2 (S k = S k)). }
  rewrite !leaf_set_leaf_complex.
  rewrite (bool_decide_eq_false_2 (S k = k)) by lia.
  rewrite (bool_decide_eq_true_2 (k = k)) by done.
  rewrite (bool_decide_eq_true_2 (S k = S k)) by done.
  rewrite (bool_decide_eq_false_2 (k = S k)) by lia.
  by rewrite H2re, H2im.
Qed.

(** [UncertainComplex.elementary] on valid arguments: the coefficient
    cannot be written into the leaves when they are independent. *)
Lemma complex_elementary_ok (dbg : bool) (c : Context) (z : float * float)
    (u_r u_i : float) (r : option float) (df : xfloat) (l : label)
    (independent : bool) :
  xlt df (Fin (qz 1)) = false →
  Qcltb u_r (qz 0) = false → Qcltb u_i (qz 0) = false →
  UncertainComplex_elementary dbg c z u_r u_i r df l independent =
    let k_re : uid := S (_elementary_id_counter c) in
    let c1 := (new_leaf (_next_elementary_id c).2 k_re (label_suffix l "_re")
                 u_r df independent).2 in
    let k_im : uid := S k_re in
    let c2 := (new_leaf (_next_elementary_id c1).2 k_im (label_suffix l "_im")
                 u_i df independent).2 in
    let c4 := set_leaf_complex (set_leaf_complex c2 k_re (k_re, k_im)) k_im
                (k_re, k_im) in
    let uc :=
      mkUncertainComplex
        (UncertainReal_init None z.1
           (if independent then [(k_re, u_r)] else [])
           (if independent then [] else [(k_re, u_r)]) []
           (Some (LeafRef k_re)))
        (UncertainReal_init None z.2
           (if independent then [(k_im, u_i)] else [])
           (if independent then [] else [(k_im, u_i)]) []
           (Some (LeafRef k_im)))
        (z.1, z.2) None (Some l) None true false in
    match r with
    | Some r =>
        if independent then Raise AttributeError
        else Ok (set_leaf_correlation (set_leaf_correlation c4 k_re k_im r)
                   k_im k_re r, uc)
    | None => Ok (c4, uc)
    end.
Proof.
  intros Hdf Hr Hi. unfold UncertainComplex_elementary.
  rewrite (elementary_ok _ _ _ _ _ _ Hdf Hr). cbv zeta.
  cbn [mbind result_bind].
  rewrite (elementary_ok _ _ _ _ _ _ Hdf Hi). cbv zeta.
  cbn [mbind result_bind].
  unfold elementary_leaf. cbn [UncertainReal_init _node mbind result_bind].
  destruct (complex_elementary_leaves c u_r u_i df (label_suffix l "_re")
              (label_suffix l "_im") independent) as [Hre Him].
  cbv zeta in Hre, Him.
  change (_elementary_id_counter
            (new_leaf (_next_elementary_id c).2 (S (_elementary_id_counter c))
               (label_suffix l "_re") u_r df independent).2)
    with (S (_elementary_id_counter c)).
  set (k := S (_elementary_id_counter c)) in *.
  destruct r as [r|].
  - unfold leaf_correlation. rewrite Hre. cbn [Leaf_independent].
    destruct independent; [done|]. cbn [mbind result_bind].
    rewrite leaf_set_leaf_correlation.
    rewrite (bool_decide_eq_false_2 (k = S k)) by lia.
    rewrite Him. cbn [Leaf_independent mbind result_bind].
    unfold UncertainComplex_init, py_assert. by destruct dbg.
  - cbn [mbind result_bind].
    unfold UncertainComplex_init, py_assert. by destruct dbg, independent.
Qed.

(** X19: [UncertainComplex.elementary] with [u_r >= 0], [u_i >= 0] and
    [df >= 1].  With [independent=True] and a coefficient [r] it raises
    [AttributeError]: the coefficient is written into the correlation
    maps of the two leaves, which independent leaves do not have.
    Otherwise it succeeds (the assertions of the constructor hold), takes
    two consecutive leaf ids and links the two leaves as a complex pair;
    the new number has the value [z], each component has [df] degrees of
    freedom and the variance [u_r*u_r] and [u_i*u_i], and the covariance
    of the two components is [u_r*r*u_i] for dependent leaves (with 0.0
    for [r] when no coefficient is given) and zero for independent
    ones. *)
Theorem complex_elementary_properties (sqrt : float → float) (dbg : bool)
    (c : Context) (z : float * float) (u_r u_i : float) (r : option float)
    (df : xfloat) (l : label) (independent : bool) :
  (qz 0 <= u_r)%Qc → (qz 0 <= u_i)%Qc → xle (Fin (qz 1)) df = true →
  (independent = true → is_Some r →
     UncertainComplex_elementary dbg c z u_r u_i r df l independent =
       Raise AttributeError) ∧
  (independent = false ∨ r = None →
   ∃ c' uc,
     UncertainComplex_elementary dbg c z u_r u_i r df l independent =
       Ok (c', uc) ∧
     _value uc = z ∧
     _node (real uc) = Some (LeafRef (S (_elementary_id_counter c))) ∧
     _node (imag uc) = Some (LeafRef (S (S (_elementary_id_counter c)))) ∧
     Leaf_complex (leaf c' (S (_elementary_id_counter c))) =
       Some (S (_elementary_id_counter c),
             S (S (_elementary_id_counter c))) ∧
     Leaf_complex (leaf c' (S (S (_elementary_id_counter c)))) =
       Some (S (_elementary_id_counter c),
             S (S (_elementary_id_counter c))) ∧
     UncertainReal_df sqrt dbg c' (real uc) = Ok (df, real uc) ∧
     UncertainReal_df sqrt dbg c' (imag uc) = Ok (df, imag uc) ∧
     std_variance_real c' (real uc) = (u_r * u_r)%Qc ∧
     std_variance_real c' (imag uc) = (u_i * u_i)%Qc ∧
     std_covariance_real c' (real uc) (imag uc) =
       (if independent then qz 0 else (u_r * default (qz 0) r * u_i)%Qc)).
Proof.
  intros Hr Hi Hdf.
  apply Qcltb_ge in Hr, Hi. apply xle_not_xlt in Hdf.
  rewrite (complex_elementary_ok dbg c z u_r u_i r df l independent Hdf Hr Hi).
  cbv zeta.
  destruct (complex_elementary_leaves c u_r u_i df (label_suffix l "_re")
              (label_suffix l "_im") independent) as [Hre Him].
  cbv zeta in Hre, Him.
  set (k := S (_elementary_id_counter c)) in *. clearbody k.
  split.
  { intros -> [r0 ->]. done. }
  intros Hcase.
  match goal with
  | |- context [Ok (_, ?u)] => set (uc0 := u)
  end.
  match goal with
  | |- ∃ c' uc, ?m = Ok (c', uc) ∧ _ =>
      assert (Hm : ∃ c', m = Ok (c', uc0) ∧
                leaf c' k =
                  mkLeaf (label_suffix l "_re") u_r df independent
                    (match r with
                     | Some r => <[S k := r]> {[k := qz 1]}
                     | None => if independent then ∅ else {[k := qz 1]}
                     end) ∅ (Some (k, S k)) ∧
                Leaf_df (leaf c' (S k)) = df ∧
                Leaf_complex (leaf c' (S k)) = Some (k, S k))
  end.
  { destruct r as [r|].
    - destruct Hcase as [->|?]; [|done]. eexists. split; [reflexivity|].
      rewrite !leaf_set_leaf_correlation.
      rewrite (bool_decide_eq_false_2 (S k = k)) by lia.
      rewrite (bool_decide_eq_true_2 (k = k)) by done.
      rewrite (bool_decide_eq_true_2 (S k = S k)) by done.
      rewrite (bool_decide_eq_false_2 (k = S k)) by lia.
      by rewrite Hre, Him.
    - eexists. split; [reflexivity|]. by rewrite Hre, Him. }
  destruct Hm as (c' & -> & Hre' & Hdf' & Hcx').
  exists c', uc0. split; [reflexivity|]. unfold uc0.
  cbn [_value real imag]. rewrite !std_variance_real_leaf.
  cbn [UncertainReal_init _node].
  split; [by destruct z|]. split; [done|]. split; [done|].
  split; [by rewrite Hre'|]. split; [done|].
  unfold UncertainReal_df.
  cbn [is_elementary _node node_df mbind result_bind].
  rewrite Hre', Hdf'. cbn [Leaf_df].
  split; [done|]. split; [done|].
  split; [done|]. split; [done|].
  unfold std_covariance_real. cbn [_u_components _d_components].
  destruct independent.
  - cbn. change (match k with 0 => false | S m' => k =? m' end)
      with (S k =? k).
    rewrite (proj2 (Nat.eqb_neq (S k) k)) by lia. rewrite qz_0. ring.
  - cbn. unfold correlation_get. rewrite Hre'. cbn.
    destruct r as [r|]; cbn.
    + rewrite lookup_insert_eq. cbn. rewrite qz_0. ring.
    + rewrite lookup_singleton_ne by lia. cbn. rewrite qz_0. ring.
Qed.

(** ** Operations on uncertain complex numbers *)

Lemma fsum_map_scale {A} (f : A → float) (k : float) (l : list A) :
  fsum (map (fun x => (k * f x)%Qc) l) = (k * fsum (map f l))%Qc.
Proof.
  induction l as [|x l IH]; [cbn [map]; rewrite fsum_nil; ring|].
  rewrite !map_cons, !fsum_cons, IH. ring.
Qed.

Lemma vget_scale (v : Vector) (k : float) (i : uid) :
  vget (scale_vector v k) i (qz 0) = (k * vget v i (qz 0))%Qc.
Proof.
  unfold scale_vector. induction v as [|[j w] v IH].
  - cbn. rewrite qz_0. ring.
  - cbn. destruct (Nat.eqb j i); [done|apply IH].
Qed.

Lemma fsum_map_scale_vector (g : uid → float → float) (v : Vector)
    (k : float) :
  fsum (map (fun ku : uid * float => g ku.1 ku.2) (scale_vector v k)) =
    fsum (map (fun ku : uid * float => g ku.1 (k * ku.2)%Qc) v).
Proof. unfold scale_vector. by rewrite map_map. Qed.

(** The covariance of two numbers whose components are those of [x1]
    scaled by [a] and those of [x2] scaled by [b]. *)
Lemma std_covariance_real_scaled (c : Context) (x1 x2 y1 y2 : UncertainReal)
    (a b : float) :
  _u_components y1 = scale_vector (_u_components x1) a →
  _d_components y1 = scale_vector (_d_components x1) a →
  _u_components y2 = scale_vector (_u_components x2) b →
  _d_components y2 = scale_vector (_d_components x2) b →
  std_covariance_real c y1 y2 = (a * b * std_covariance_real c x1 x2)%Qc.
Proof.
  intros Hu1 Hd1 Hu2 Hd2. unfold std_covariance_real.
  rewrite !(foldl_fsum_acc
    (fun k1 : uid * float => fsum (map (fun k2 : uid * float =>
       (k1.2 * correlation_get c k1.1 k2.1 * k2.2)%Qc) _))).
  rewrite Hu1, Hd1, Hu2, Hd2.
  rewrite (fsum_map_scale_vector
    (fun i u => (u * vget (scale_vector (_u_components x2) b) i (qz 0))%Qc)).
  rewrite (fsum_map_scale_vector
    (fun i u => fsum (map (fun k2 : uid * float =>
       (u * correlation_get c i k2.1 * k2.2)%Qc)
       (scale_vector (_d_components x2) b)))).
  rewrite (fsum_map_ext
    (fun ku : uid * float =>
       (a * ku.2 * vget (scale_vector (_u_components x2) b) ku.1 (qz 0))%Qc)
    (fun ku : uid * float =>
       (a * b * (ku.2 * vget (_u_components x2) ku.1 (qz 0)))%Qc))
    by (intros ku; rewrite vget_scale; ring).
  rewrite (fsum_map_ext
    (fun ku : uid * float => fsum (map (fun k2 : uid * float =>
       (a * ku.2 * correlation_get c ku.1 k2.1 * k2.2)%Qc)
       (scale_vector (_d_components x2) b)))
    (fun ku : uid * float => (a * b * fsum (map (fun k2 : uid * float =>
       (ku.2 * correlation_get c ku.1 k2.1 * k2.2)%Qc)
       (_d_components x2)))%Qc)).
  - rewrite !fsum_map_scale, qz_0. ring.
  - intros ku.
    rewrite (fsum_map_scale_vector
      (fun i u => (a * ku.2 * correlation_get c ku.1 i * u)%Qc)).
    rewrite <- fsum_map_scale. apply fsum_map_ext. intros k2. ring.
Qed.

Lemma UncertainComplex_init_ok (dbg : bool) (r i : UncertainReal) :
  is_elementary r = false → is_elementary i = false →
  is_intermediate r = false → is_intermediate i = false →
  (dbg = false ∨ _context i = _context r →
     UncertainComplex_init dbg r i =
       Ok (mkUncertainComplex r i (_x r, _x i) None None (_context r)
             false false)) ∧
  (dbg = true → _context i ≠ _context r →
     UncertainComplex_init dbg r i = Raise AssertionError).
Proof.
  intros Her Hei Hir Hii. unfold UncertainComplex_init, py_assert.
  rewrite Her, Hei, Hir, Hii. cbn [eqb orb negb andb]. split.
  - intros [->|Hc]; [done|].
    rewrite (bool_decide_eq_true_2 _ Hc). cbn [negb].
    by rewrite !andb_false_r.
  - intros -> Hc. by rewrite (bool_decide_eq_false_2 _ Hc).
Qed.

(** X20: the negative, the copy by unary plus and the conjugate of an
    uncertain complex number are built when the contexts of its two
    components agree (or assertions are disabled); with assertions
    enabled and different contexts the constructor raises
    [AssertionError].  The value is negated, copied and conjugated, the
    variances of the two components stay as they are, and the covariance
    of the components is kept by the negative and the copy and negated by
    the conjugate. *)
Theorem complex_unary_operations (dbg : bool) (c : Context)
    (z : UncertainComplex) :
  (dbg = false ∨ _context (imag z) = _context (real z) →
     ∃ n p cj,
       UncertainComplex_neg dbg z = Ok n ∧
       UncertainComplex_pos dbg z = Ok p ∧
       UncertainComplex_conjugate dbg z = Ok cj ∧
       _value n = ((- _x (real z))%Qc, (- _x (imag z))%Qc) ∧
       _value p = (_x (real z), _x (imag z)) ∧
       _value cj = (_x (real z), (- _x (imag z))%Qc) ∧
       (∀ y, y ∈ [n; p; cj] →
          std_variance_real c (real y) = std_variance_real c (real z) ∧
          std_variance_real c (imag y) = std_variance_real c (imag z)) ∧
       std_covariance_real c (real n) (imag n) =
         std_covariance_real c (real z) (imag z) ∧
       std_covariance_real c (real p) (imag p) =
         std_covariance_real c (real z) (imag z) ∧
       std_covariance_real c (real cj) (imag cj) =
         (- std_covariance_real c (real z) (imag z))%Qc) ∧
  (dbg = true → _context (imag z) ≠ _context (real z) →
     UncertainComplex_neg dbg z = Raise AssertionError ∧
     UncertainComplex_pos dbg z = Raise AssertionError ∧
     UncertainComplex_conjugate dbg z = Raise AssertionError).
Proof.
  assert (Hm1 : (qz (-1) * qz (-1))%Qc = 1%Qc) by (by apply Qc_is_canon).
  assert (Hm : qz (-1) = (- (1))%Qc) by (by apply Qc_is_canon).
  assert (Hneg : ∀ x, std_variance_real c (UncertainReal_neg x) =
                        std_variance_real c x).
  { intros x. rewrite (std_variance_real_scaled c x _ (qz (-1))) by done.
    rewrite Hm1. ring. }
  assert (Hpos : ∀ x, std_variance_real c (UncertainReal_pos x) =
                        std_variance_real c x).
  { intros x. by rewrite !std_variance_real_closed. }
  unfold UncertainComplex_neg, UncertainComplex_pos,
    UncertainComplex_conjugate.
  split.
  - intros Hc.
    rewrite (proj1 (UncertainComplex_init_ok dbg
               (UncertainReal_neg (real z)) (UncertainReal_neg (imag z))
               eq_refl eq_refl eq_refl eq_refl) Hc).
    rewrite (proj1 (UncertainComplex_init_ok dbg
               (UncertainReal_pos (real z)) (UncertainReal_pos (imag z))
               eq_refl eq_refl eq_refl eq_refl) Hc).
    rewrite (proj1 (UncertainComplex_init_ok dbg
               (UncertainReal_pos (real z)) (UncertainReal_neg (imag z))
               eq_refl eq_refl eq_refl eq_refl) Hc).
    eexists _, _, _. split; [reflexivity|]. split; [reflexivity|].
    split; [reflexivity|]. cbn [_value real imag].
    split; [done|]. split; [done|]. split; [done|]. split.
    { intros y Hy. rewrite !elem_of_cons in Hy.
      destruct Hy as [->|[->|[->|Hy]]]; [| | |inversion Hy];
        cbn [real imag]; by rewrite ?Hneg, ?Hpos. }
    split; [|split].
    + rewrite (std_covariance_real_scaled c (real z) (imag z) _ _
                 (qz (-1)) (qz (-1))) by done.
      rewrite Hm1. ring.
    + rewrite (std_covariance_real_scaled c (real z) (imag z) _ _
                 (qz 1) (qz 1)) by (cbn; by rewrite scale_vector_1).
      rewrite qz_1. ring.
    + rewrite (std_covariance_real_scaled c (real z) (imag z) _ _
                 (qz 1) (qz (-1))) by (cbn; by rewrite ?scale_vector_1).
      rewrite qz_1, Hm. ring.
  - intros Hd Hc.
    rewrite (proj2 (UncertainComplex_init_ok dbg
               (UncertainReal_neg (real z)) (UncertainReal_neg (imag z))
               eq_refl eq_refl eq_refl eq_refl) Hd Hc).
    rewrite (proj2 (UncertainComplex_init_ok dbg
               (UncertainReal_pos (real z)) (UncertainReal_pos (imag z))
               eq_refl eq_refl eq_refl eq_refl) Hd Hc).
    rewrite (proj2 (UncertainComplex_init_ok dbg
               (UncertainReal_pos (real z)) (UncertainReal_neg (imag z))
               eq_refl eq_refl eq_refl eq_refl) Hd Hc).
    done.
Qed.

(** X21: adding a complex number [w ≠ 0] to an uncertain complex number
    depends on the side: [z + w] builds the uncertain complex number with
    the value [z.x + w], but [w + z], which Python hands to [__radd__],
    returns [None]: the branch for a complex left operand ends without a
    [return] statement.  For [w = 0] both return [z] itself. *)
Theorem complex_radd_complex_returns_none (dbg : bool) (z : UncertainComplex)
    (w : float * float) :
  (Qceqb w.1 (qz 0) && Qceqb w.2 (qz 0) = false →
     UncertainComplex_radd dbg z (LeftComplex w) = Ok None ∧
     (dbg = false ∨ _context (imag z) = _context (real z) →
        ∃ s, UncertainComplex_add dbg z (OpComplexC w) = Ok s ∧
             _value s = ((_x (real z) + w.1)%Qc, (_x (imag z) + w.2)%Qc))) ∧
  UncertainComplex_radd dbg z (LeftComplex (qz 0, qz 0)) = Ok (Some z) ∧
  UncertainComplex_add dbg z (OpComplexC (qz 0, qz 0)) = Ok z.
Proof.
  unfold UncertainComplex_radd, UncertainComplex_add.
  split; [|done]. intros ->. split; [done|]. intros Hc.
  match goal with
  | |- context [UncertainComplex_init dbg ?r ?i] =>
      rewrite (proj1 (UncertainComplex_init_ok dbg r i
                 eq_refl eq_refl eq_refl eq_refl) Hc)
  end.
  eauto.
Qed.

(** X22: an uncertain complex number minus itself is exactly zero: both
    components have the value zero and the variance zero, and their
    covariance is zero, whatever the correlations between the influences.
    The difference is built when the contexts of the two components
    agree or assertions are disabled; otherwise the constructor raises
    [AssertionError]. *)
Theorem complex_self_difference (dbg : bool) (c : Context)
    (z : UncertainComplex) :
  (dbg = false ∨ _context (imag z) = _context (real z) →
     ∃ d, UncertainComplex_sub dbg z (OpUncertainComplex z) = Ok d ∧
          _value d = (qz 0, qz 0) ∧
          std_variance_real c (real d) = qz 0 ∧
          std_variance_real c (imag d) = qz 0 ∧
          std_covariance_real c (real d) (imag d) = qz 0) ∧
  (dbg = true → _context (imag z) ≠ _context (real z) →
     UncertainComplex_sub dbg z (OpUncertainComplex z) =
       Raise AssertionError).
Proof.
  assert (Hz : (qz 1 + qz (-1))%Qc = qz 0) by (by apply Qc_is_canon).
  assert (Hcomp : ∀ x,
    _u_components (_sub x (OpUncertainReal x)) =
      scale_vector (_u_components x) (qz 0) ∧
    _d_components (_sub x (OpUncertainReal x)) =
      scale_vector (_d_components x) (qz 0)).
  { intros x. cbn. by rewrite !merge_weighted_vectors_self, Hz. }
  unfold UncertainComplex_sub. split.
  - intros Hc.
    match goal with
    | |- context [UncertainComplex_init dbg ?r ?i] =>
        rewrite (proj1 (UncertainComplex_init_ok dbg r i
                   eq_refl eq_refl eq_refl eq_refl) Hc)
    end.
    eexists. split; [reflexivity|]. cbn [_value real imag].
    destruct (Hcomp (real z)) as [Hur Hdr].
    destruct (Hcomp (imag z)) as [Hui Hdi].
    split; [|split; [|split]].
    + cbn. f_equal; rewrite qz_0; ring.
    + rewrite (std_variance_real_scaled c (real z) _ (qz 0)) by done.
      rewrite qz_0. ring.
    + rewrite (std_variance_real_scaled c (imag z) _ (qz 0)) by done.
      rewrite qz_0. ring.
    + rewrite (std_covariance_real_scaled c (real z) (imag z) _ _
                 (qz 0) (qz 0)) by done.
      rewrite qz_0. ring.
  - intros Hd Hc.
    match goal with
    | |- context [UncertainComplex_init dbg ?r ?i] =>
        by rewrite (proj2 (UncertainComplex_init_ok dbg r i
                      eq_refl eq_refl eq_refl eq_refl) Hd Hc)
    end.
Qed.

(** ** Constants *)

Lemma merge_vectors_nil_r (a : Vector) : merge_vectors a [] = a.
Proof. by destruct a as [|[k u] a]. Qed.

Lemma merge_weighted_vectors_nil_r (a : Vector) (ca cb : float) :
  merge_weighted_vectors a ca [] cb = scale_vector a ca.
Proof. by destruct a as [|[k u] a]. Qed.

(** X25: a constant uncertain real has the variance zero and infinite
    degrees of freedom, is not elementary and cannot be correlated:
    [set_correlation_real] with a constant on either side never succeeds;
    it raises [RuntimeError], unless formatting the other number [y] for
    the message of that error raises first.  In a sum, a difference and a
    product the constant acts as the plain number does:
    [x + constant(k)] is [x + k] and [x - constant(k)] is [x - k] for
    [k ≠ 0], and [x * constant(k)] is [x * k] for [k ≠ 1], in value and in
    every component of uncertainty. *)
Theorem constant_acts_as_number (sqrt : float → float) (dbg : bool)
    (c : Context) (k : float) (l : label) (x y : UncertainReal) (r : float) :
  std_variance_real c (UncertainReal_constant k l) = qz 0 ∧
  UncertainReal_df sqrt dbg c (UncertainReal_constant k l) =
    Ok (inf, UncertainReal_constant k l) ∧
  set_correlation_real sqrt dbg c (UncertainReal_constant k l) y r =
    (_ ← UncertainReal_repr sqrt dbg c y; Raise RuntimeError) ∧
  set_correlation_real sqrt dbg c y (UncertainReal_constant k l) r =
    (_ ← UncertainReal_repr sqrt dbg c y; Raise RuntimeError) ∧
  (k ≠ qz 0 →
     _add x (OpUncertainReal (UncertainReal_constant k l)) =
       _add x (OpReal k) ∧
     _sub x (OpUncertainReal (UncertainReal_constant k l)) =
       _sub x (OpReal k)) ∧
  (k ≠ qz 1 →
     _mul x (OpUncertainReal (UncertainReal_constant k l)) =
       _mul x (OpReal k)).
Proof.
  split; [done|]. split; [done|]. split; [done|].
  split.
  { unfold set_correlation_real. cbn [UncertainReal_constant
      UncertainReal_init is_elementary]. rewrite andb_false_r.
    destruct (UncertainReal_repr sqrt dbg c y) as [[]|e]; [|done].
    cbn [mbind result_bind]. unfold UncertainReal_repr, UncertainReal_u,
      UncertainReal_df, welch_satterthwaite, math_sqrt.
    by cbn. }
  split.
  - intros Hk. apply Qceqb_neq in Hk. unfold _add, _sub. rewrite Hk. cbn.
    rewrite !merge_vectors_nil_r, !merge_weighted_vectors_nil_r.
    by rewrite !scale_vector_1.
  - intros Hk. apply Qceqb_neq in Hk. unfold _mul. rewrite Hk. cbn.
    by rewrite !merge_weighted_vectors_nil_r.
Qed.

(** ** [lib_complex] as the file is written *)

(** X29.  [willink_hall] and the property [df] of an uncertain complex
    number, in the file as written.  A constant, as
    [UncertainComplex.constant] makes it, gets the zero matrix and
    infinite degrees of freedom.  For every other number neither returns
    a value; when the assertion on the components holds and the two
    variances can be read, the exception is the [NameError] of the
    unbound [real] or [is_infinity].  Two examples: the elementary number
    [1+2j] and a number whose components share two leaves. *)
Theorem willink_hall_as_written (sqrt : float → float) (debug : bool) :
  (∀ c x, _is_uncertain_complex_constant x = true →
     AsWritten.willink_hall sqrt debug c x =
       Ok (mkVarianceCovariance (qz 0) (qz 0) (qz 0) (qz 0), inf, x) ∧
     AsWritten.UncertainComplex_df sqrt debug c x = Ok (inf, x)) ∧
  (∀ c x, _is_uncertain_complex_constant x = false →
     (∃ e, AsWritten.willink_hall sqrt debug c x = Raise e) ∧
     (∃ e, AsWritten.UncertainComplex_df sqrt debug c x = Raise e)) ∧
  (∀ c x v_r v_i re' im',
     _is_uncertain_complex_constant x = false →
     (is_elementary (real x) = true → is_elementary (imag x) = true) →
     UncertainReal_v sqrt c (real x) = Ok (v_r, re') →
     UncertainReal_v sqrt c (imag x) = Ok (v_i, im') →
     AsWritten.willink_hall sqrt debug c x = Raise NameError ∧
     AsWritten.UncertainComplex_df sqrt debug c x = Raise NameError) ∧
  (∀ c z l, ∃ uc,
     UncertainComplex_constant debug z l = Ok uc ∧
     AsWritten.UncertainComplex_df sqrt debug c uc = Ok (inf, uc)) ∧
  AsWritten.UncertainComplex_df sqrt debug complex_pair_state.1
    complex_pair_state.2 = Raise NameError ∧
  AsWritten.UncertainComplex_df sqrt debug two_leaves shared_complex =
    Raise NameError.
Proof.
  assert (Hall : ∀ c x, _is_uncertain_complex_constant x = false →
            ∃ e, AsWritten.willink_hall sqrt debug c x = Raise e).
  { intros c x Hc. unfold AsWritten.willink_hall. rewrite Hc.
    destruct (is_elementary (real x)).
    - destruct (py_assert debug (is_elementary (imag x))) as [[]|e];
        cbn; [apply as_written_no_value | by exists e].
    - cbv zeta. case_match; [apply as_written_no_value|].
      repeat case_match; first [apply as_written_no_value | by eexists]. }
  assert (Hname : ∀ c x v_r v_i re' im',
            _is_uncertain_complex_constant x = false →
            (is_elementary (real x) = true → is_elementary (imag x) = true) →
            UncertainReal_v sqrt c (real x) = Ok (v_r, re') →
            UncertainReal_v sqrt c (imag x) = Ok (v_i, im') →
            AsWritten.willink_hall sqrt debug c x = Raise NameError).
  { intros c x v_r v_i re' im' Hc Ha Hr Hi.
    pose proof (as_written_covariance_raises _ _ _ _ _ _ _ Hr Hi) as Hcv.
    unfold AsWritten.willink_hall. rewrite Hc, Hcv.
    destruct (is_elementary (real x)).
    - rewrite (Ha eq_refl). by destruct debug.
    - cbv zeta. by repeat case_match. }
  split; [|split; [|split; [|split; [|split]]]].
  - intros c x Hc. unfold AsWritten.UncertainComplex_df, AsWritten.willink_hall.
    by rewrite Hc.
  - intros c x Hc. destruct (Hall c x Hc) as [e He].
    split; [by exists e|]. exists e.
    unfold AsWritten.UncertainComplex_df. by rewrite He.
  - intros c x v_r v_i re' im' Hc Ha Hr Hi.
    pose proof (Hname c x v_r v_i re' im' Hc Ha Hr Hi) as Hw.
    split; [done|]. unfold AsWritten.UncertainComplex_df. by rewrite Hw.
  - intros c z l. eexists. split; [by destruct debug|]. by destruct debug.
  - by destruct debug; vm_compute.
  - by destruct debug; vm_compute.
Qed.

(** X30.  [UncertainComplex(r,i)] in the file as written.  With
    assertions on and exactly one elementary component, the first
    assertion evaluates the name [_is_uncertain_real_constant], which
    [lib_complex] does not bind: the result is [NameError].  In every
    other case the call does what it does with the name bound. *)
Theorem complex_init_as_written (debug : bool) (r i : UncertainReal) :
  (debug = true → is_elementary i ≠ is_elementary r →
     AsWritten.UncertainComplex_init debug r i = Raise NameError) ∧
  (debug = false ∨ is_elementary i = is_elementary r →
     AsWritten.UncertainComplex_init debug r i =
       UncertainComplex_init debug r i) ∧
  AsWritten.UncertainComplex_init true on_leaf_0
    (UncertainReal_constant (qz 0) None) = Raise NameError ∧
  UncertainComplex_init true on_leaf_0
    (UncertainReal_constant (qz 0) None) =
    Ok (mkUncertainComplex on_leaf_0 (UncertainReal_constant (qz 0) None)
          (qz 1, qz 0) None None None true false).
Proof.
  split; [|split; [|split]].
  - intros -> Hne. unfold AsWritten.UncertainComplex_init.
    by destruct (is_elementary i), (is_elementary r).
  - intros H. unfold AsWritten.UncertainComplex_init, UncertainComplex_init.
    destruct H as [->|Heq]; [done|]. rewrite Heq.
    rewrite eqb_reflx. by destruct debug.
  - by vm_compute.
  - by vm_compute.
Qed.

(** ** The further theorems at concrete inputs *)

(** [set_correlation_frame] at the leaves 0 and 1 with [r = 1/2]. *)
Lemma set_correlation_frame_witness :
  (_elementary_id_counter correlated_leaves =
     _elementary_id_counter two_leaves ∧
   _intermediate_id_counter correlated_leaves =
     _intermediate_id_counter two_leaves ∧
   _registered_intermediate_nodes correlated_leaves =
     _registered_intermediate_nodes two_leaves) ∧
  (∀ k,
     Leaf_label (leaf correlated_leaves k) = Leaf_label (leaf two_leaves k) ∧
     Leaf_u (leaf correlated_leaves k) = Leaf_u (leaf two_leaves k) ∧
     Leaf_df (leaf correlated_leaves k) = Leaf_df (leaf two_leaves k) ∧
     Leaf_independent (leaf correlated_leaves k) =
       Leaf_independent (leaf two_leaves k) ∧
     Leaf_ensemble (leaf correlated_leaves k) =
       Leaf_ensemble (leaf two_leaves k) ∧
     Leaf_complex (leaf correlated_leaves k) =
       Leaf_complex (leaf two_leaves k)) ∧
  (∀ k j, ¬ (k = 0 ∧ j = 1) → ¬ (k = 1 ∧ j = 0) →
     Leaf_correlation (leaf correlated_leaves k) !! j =
       Leaf_correlation (leaf two_leaves k) !! j) ∧
  (∀ y, 0 ∉ keys (_d_components y) ∨ 1 ∉ keys (_d_components y) →
     std_variance_real correlated_leaves y = std_variance_real two_leaves y).
Proof.
  apply (set_correlation_frame sqrt_floor true two_leaves on_leaf_0
           on_leaf_1 (qfrac 1 2) correlated_leaves 0 1); reflexivity.
Defined.

(** [covariance_after_set_correlation] at the leaves 0 and 1 with
    [r = 1/2]. *)
Lemma covariance_after_set_correlation_witness :
  get_covariance_real correlated_leaves on_leaf_0 on_leaf_1 =
    Ok (Leaf_u (leaf two_leaves 0%nat) * qfrac 1 2 *
        Leaf_u (leaf two_leaves 1%nat))%Qc ∧
  get_covariance_real correlated_leaves on_leaf_1 on_leaf_0 =
    Ok (Leaf_u (leaf two_leaves 1%nat) * qfrac 1 2 *
        Leaf_u (leaf two_leaves 0%nat))%Qc.
Proof.
  apply (covariance_after_set_correlation sqrt_floor true two_leaves
           on_leaf_0 on_leaf_1 0 1 (qfrac 1 2) correlated_leaves);
    try reflexivity.
  discriminate.
Defined.

(** [covariance_of_independent_elementary] at [elementary(1,1,5)] and
    [elementary(2,2,7)]. *)
Lemma covariance_of_independent_elementary_witness :
  get_covariance_real independent_second.1 independent_first.2
    independent_second.2 = Ok (qz 1 * qz 2)%Qc ∧
  std_covariance_real independent_second.1 independent_first.2
    independent_second.2 = qz 0 ∧
  get_correlation_real sqrt_floor independent_second.1 independent_first.2
    independent_second.2 = Raise AttributeError.
Proof.
  apply (covariance_of_independent_elementary sqrt_floor empty_context
           (qz 1) (qz 1) (Fin (qz 5)) None (qz 2) (qz 2) (Fin (qz 7)) None
           independent_first.1 independent_second.1
           independent_first.2 independent_second.2); reflexivity.
Defined.

(** [intermediate_keeps_number] at the sum of the two numbers. *)
Lemma intermediate_keeps_number_witness :
  _x registered_once.2 = _x derived_sum ∧
  _u_components registered_once.2 = _u_components derived_sum ∧
  _d_components registered_once.2 = _d_components derived_sum ∧
  is_elementary registered_once.2 = is_elementary derived_sum ∧
  _registered_leaf_nodes registered_once.1 = _registered_leaf_nodes two_leaves ∧
  _elementary_id_counter registered_once.1 = _elementary_id_counter two_leaves ∧
  (∀ u x1, UncertainReal_u sqrt_floor two_leaves derived_sum = Ok (u, x1) →
     ∃ x2, UncertainReal_u sqrt_floor registered_once.1 registered_once.2 =
             Ok (u, x2)).
Proof.
  apply (intermediate_keeps_number sqrt_floor two_leaves derived_sum None
           registered_once.1 registered_once.2).
  reflexivity.
Defined.

(** [welch_satterthwaite_infinite] at the sum of two correlated numbers
    with infinite degrees of freedom. *)
Lemma welch_satterthwaite_infinite_witness :
  ((qz 0 <= std_variance_real infinite_leaves derived_sum)%Qc →
     ∃ x', welch_satterthwaite sqrt_floor true infinite_leaves derived_sum =
             Ok ((std_variance_real infinite_leaves derived_sum, inf), x') ∧
           UncertainReal_df sqrt_floor true infinite_leaves derived_sum =
             Ok (inf, x')) ∧
  ((std_variance_real infinite_leaves derived_sum < qz 0)%Qc →
     welch_satterthwaite sqrt_floor true infinite_leaves derived_sum =
       Raise ValueError).
Proof.
  apply (welch_satterthwaite_infinite sqrt_floor true infinite_leaves
           derived_sum); try reflexivity.
  intros k Hk. change (k ∈ [0; 1]) in Hk.
  repeat (apply elem_of_cons in Hk as [->|Hk]; [reflexivity|]).
  inversion Hk.
Defined.

(** [complex_elementary_properties] at
    [elementary(1+2j, 1, 2, 0.5, 5)] on dependent leaves. *)
Lemma complex_elementary_properties_witness :
  (false = true → is_Some (Some (qfrac 1 2)) →
     UncertainComplex_elementary true empty_context (qz 1, qz 2) (qz 1)
       (qz 2) (Some (qfrac 1 2)) (Fin (qz 5)) None false =
       Raise AttributeError) ∧
  (false = false ∨ Some (qfrac 1 2) = None →
   ∃ c' uc,
     UncertainComplex_elementary true empty_context (qz 1, qz 2) (qz 1)
       (qz 2) (Some (qfrac 1 2)) (Fin (qz 5)) None false = Ok (c', uc) ∧
     _value uc = (qz 1, qz 2) ∧
     _node (real uc) =
       Some (LeafRef (S (_elementary_id_counter empty_context))) ∧
     _node (imag uc) =
       Some (LeafRef (S (S (_elementary_id_counter empty_context)))) ∧
     Leaf_complex (leaf c' (S (_elementary_id_counter empty_context))) =
       Some (S (_elementary_id_counter empty_context),
             S (S (_elementary_id_counter empty_context))) ∧
     Leaf_complex (leaf c' (S (S (_elementary_id_counter empty_context)))) =
       Some (S (_elementary_id_counter empty_context),
             S (S (_elementary_id_counter empty_context))) ∧
     UncertainReal_df sqrt_floor true c' (real uc) =
       Ok (Fin (qz 5), real uc) ∧
     UncertainReal_df sqrt_floor true c' (imag uc) =
       Ok (Fin (qz 5), imag uc) ∧
     std_variance_real c' (real uc) = (qz 1 * qz 1)%Qc ∧
     std_variance_real c' (imag uc) = (qz 2 * qz 2)%Qc ∧
     std_covariance_real c' (real uc) (imag uc) =
       (if false then qz 0
        else (qz 1 * default (qz 0) (Some (qfrac 1 2)) * qz 2)%Qc)).
Proof.
  apply (complex_elementary_properties sqrt_floor true empty_context
           (qz 1, qz 2) (qz 1) (qz 2) (Some (qfrac 1 2)) (Fin (qz 5)) None
           false).
  - vm_compute. discriminate.
  - vm_compute. discriminate.
  - reflexivity.
Defined.
